(** * InkyPi server for the Waveshare Spectra 6 panel: image-to-display conversion

    A shallow embedding of the conversion pipeline of
    [src/blueprints/main.py], [src/utils/app_utils.py] and
    [src/plugins/image_upload/image_upload.py]:

    - the numpy expressions of the 4-bit packer ([convert_to_display_format]);
    - the palette table built by [_create_palette_image] and the quantizer
      that is given it;
    - the geometry fitter [_resize_and_rotate_image], with its border
      arithmetic in double precision;
    - the conditional-request gate of [get_current_image], with the
      reading of the header in the zone of the server;
    - the upload handler and the image-upload plugin.

    Python exceptions are values of [exn]; a call that can raise returns
    [result A = exn + A]. *)

From Stdlib Require Import ZArith List Lia String Ascii Bool QArith.
From Stdlib Require PrimFloat.
From stdpp Require Import gmap strings list.
Import ListNotations.

Local Open Scope string_scope.
Local Open Scope Z_scope.

(** ** Exceptions *)

Inductive exn : Type :=
| ValueError (msg : string)
| RuntimeError (msg : string)
| IndexError (msg : string)
| TypeError (msg : string)
| AttributeError (msg : string)
| OSError (msg : string).

(** [str(e)] *)
Definition exn_message (e : exn) : string :=
  match e with
  | ValueError m | RuntimeError m | IndexError m
  | TypeError m | AttributeError m | OSError m => m
  end.

Definition result (A : Type) : Type := (exn + A)%type.

Definition raise {A : Type} (e : exn) : result A := inl e.
Definition ret {A : Type} (a : A) : result A := inr a.

Definition bind {A B : Type} (m : result A) (k : A -> result B) : result B :=
  match m with
  | inl e => inl e
  | inr a => k a
  end.

Notation "'do' x <- m ; k" := (bind m (fun x => k))
  (at level 10, x name, m at level 100, k at level 200).

(** An RGB triple. *)
Definition rgb : Type := (Z * Z * Z)%type.

(** ** The numpy fragment used by the packer

    One-dimensional [uint8] arrays are lists of integers in [0, 256). *)

Module Numpy.

(** Arithmetic on [uint8] wraps modulo 256. *)
Definition uint8 (z : Z) : Z := z mod 256.

(** [np.array(img, dtype=np.uint8)]: one row of the array per image row. *)
Definition array_uint8 (rows : list (list Z)) : list (list Z) :=
  List.map (List.map uint8) rows.

(** [a.flatten()]: row-major (C order). *)
Definition flatten (a : list (list Z)) : list Z := List.concat a.

(** [a[0::2]] *)
Fixpoint even_slice (a : list Z) : list Z :=
  match a with
  | [] => []
  | x :: t =>
      x :: match t with
           | [] => []
           | _ :: t' => even_slice t'
           end
  end.

(** [a[1::2]] *)
Definition odd_slice (a : list Z) : list Z := even_slice (List.tl a).

(** [a << k] with a Python scalar [k]: element-wise, result stays [uint8]. *)
Definition lshift (a : list Z) (k : Z) : list Z :=
  List.map (fun x => uint8 (Z.shiftl x k)) a.

Fixpoint zip_with (f : Z -> Z -> Z) (a b : list Z) : list Z :=
  match a, b with
  | x :: a', y :: b' => f x y :: zip_with f a' b'
  | _, _ => []
  end.

(** A binary ufunc on two one-dimensional arrays.  Equal shapes are
    combined element-wise; a shape of [(1,)] is stretched to the other
    one; any other pair of shapes raises.  The message of numpy goes on
    after these words with the two shapes ("... with shapes (3,) (2,) ");
    the exception keeps its first words only. *)
Definition broadcast (f : Z -> Z -> Z) (a b : list Z) : result (list Z) :=
  if (length a =? length b)%nat then ret (zip_with f a b)
  else match a, b with
       | [x], _ => ret (List.map (f x) b)
       | _, [y] => ret (List.map (fun x => f x y) a)
       | _, _ => raise (ValueError "operands could not be broadcast together")
       end.

(** [a | b] *)
Definition bitor (a b : list Z) : result (list Z) := broadcast Z.lor a b.

End Numpy.

(** ** The bit packer: lines 72-77 of [convert_to_display_format]

    [pixels = np.array(quantized, dtype=np.uint8)]
    [flat = pixels.flatten()]
    [packed = (flat[0::2] << 4) | flat[1::2]]
    [return bytes(packed)] *)

Definition pack_pixels (quantized : list (list Z)) : result (list Z) :=
  let pixels := Numpy.array_uint8 quantized in
  let flat := Numpy.flatten pixels in
  do packed <- Numpy.bitor (Numpy.lshift (Numpy.even_slice flat) 4)
                           (Numpy.odd_slice flat);
  ret packed.

(** The packed form of a flat array whose slices have equal lengths. *)
Definition pack_flat (flat : list Z) : list Z :=
  Numpy.zip_with Z.lor (Numpy.lshift (Numpy.even_slice flat) 4) (Numpy.odd_slice flat).

(** Reading a packed buffer back: high nibble, then low nibble, of each byte. *)
Definition unpack_byte (b : Z) : list Z := [Z.shiftr b 4; Z.land b 15].

Definition unpack (buf : list Z) : list Z := List.concat (List.map unpack_byte buf).

(** An index canvas of [w] columns and [h] rows whose entries are below [bound]. *)
Definition canvas (bound : Z) (w h : nat) (px : list (list Z)) : Prop :=
  length px = h /\
  Forall (fun row => length row = w /\ Forall (fun p => 0 <= p < bound) row) px.

(** The packing of a canvas of odd pixel count that pads the trailing
    pixel with index 0. *)
Definition padded_pack (w h : nat) (px : list (list Z)) : Prop :=
  exists buf,
    pack_pixels px = inr buf /\
    Z.of_nat (length buf) = (Z.of_nat (w * h) + 1) / 2 /\
    unpack buf = (List.concat px ++ [0])%list.

(** ** The palette table: lines 26-51 of [main.py] *)

(** A palette-mode ('P') image: its palette as a flat R,G,B list and its
    rows of palette indices. *)
Record PImage : Type := mkPImage {
  p_palette : list Z;
  p_pixels : list (list Z)
}.

Definition palette_data : list Z :=
  [ 0; 0; 0;
    255; 255; 255;
    0; 128; 0;
    0; 0; 255;
    255; 0; 0;
    255; 255; 0 ] ++ List.repeat 0 (768 - 18)%nat.

(** [pixels[x, y] = v] on the rows of an image; nothing happens out of range
    in this model (the loop below stays in range). *)
Definition putpixel (px : list (list Z)) (x y : nat) (v : Z) : list (list Z) :=
  alter (fun row => <[x := v]> row) y px.

Definition _create_palette_image : PImage :=
  (* Image.new('P', (6, 1)) *)
  let blank := [List.repeat 0 6%nat] in
  (* for i in range(6): pixels[i, 0] = i *)
  let pixels := fold_left (fun px i => putpixel px i 0%nat (Z.of_nat i)) (seq 0 6) blank in
  mkPImage palette_data pixels.

Definition PALETTE_IMAGE : PImage := _create_palette_image.

(** The colours of a flat palette, one per index. *)
Fixpoint triples (l : list Z) : list rgb :=
  match l with
  | r :: g :: b :: t => (r, g, b) :: triples t
  | _ => []
  end.

Definition Black : rgb := (0, 0, 0).
Definition White : rgb := (255, 255, 255).
Definition Green : rgb := (0, 128, 0).
Definition Blue : rgb := (0, 0, 255).
Definition Red : rgb := (255, 0, 0).
Definition Yellow : rgb := (255, 255, 0).

Definition six_colors : list rgb := [Black; White; Green; Blue; Red; Yellow].

(** [img.convert('RGB')] on a palette image: every index is looked up in
    the palette (an index past the palette reads as black). *)
Definition color_of (palette : list Z) (i : Z) : rgb :=
  List.nth (Z.to_nat i) (triples palette) Black.

Definition to_rgb (q : PImage) : list (list rgb) :=
  List.map (List.map (color_of (p_palette q))) (p_pixels q).

(** ** The quantizer

    [resize_and_dither_image] hands the decoded RGB image to Pillow's
    [Image.quantize] together with [PALETTE_IMAGE] and the Floyd-Steinberg
    flag; the dithering itself is library code that the repository does not
    contain.  It is modelled here after section 4.3 of the specification. *)

Section Quantizer.

(** [share k e] is the part of the error component [e] that is diffused
    with coefficient [k/16]; the specification fixes the coefficients and
    leaves the rounding open. *)
Variable share : Z -> Z -> Z.

Definition dist2 (c p : rgb) : Z :=
  let '(r, g, b) := c in
  let '(pr, pg, pb) := p in
  (r - pr) * (r - pr) + (g - pg) * (g - pg) + (b - pb) * (b - pb).

(** Modelled from the spec: the scan behind the nearest-colour search of
    Pillow's quantizer, in index order; an entry replaces the best one so
    far only when it is strictly nearer, so the lowest index wins a tie. *)
Fixpoint nearest_from (c : rgb) (entries : list rgb) (i best bestd : Z) : Z :=
  match entries with
  | [] => best
  | p :: rest =>
      if dist2 c p <? bestd
      then nearest_from c rest (i + 1) i (dist2 c p)
      else nearest_from c rest (i + 1) best bestd
  end.

(** Modelled from the spec: the nearest-colour search of Pillow's
    quantizer ("find the nearest palette color by a distance metric,
    Euclidean in RGB"), over every entry of the palette it is given. *)
Definition nearest (pal : list rgb) (c : rgb) : Z :=
  match pal with
  | [] => 0
  | p :: rest => nearest_from c rest 1 0 (dist2 c p)
  end.

Definition rgb_sub (c p : rgb) : rgb :=
  let '(r, g, b) := c in
  let '(pr, pg, pb) := p in
  (r - pr, g - pg, b - pb).

Definition rgb_add (c d : rgb) : rgb :=
  let '(r, g, b) := c in
  let '(dr, dg, db) := d in
  (r + dr, g + dg, b + db).

Definition rgb_share (k : Z) (e : rgb) : rgb :=
  let '(er, eg, eb) := e in
  (share k er, share k eg, share k eb).

(** The working value at column [x] of row [y] (black when out of range). *)
Definition work_at (g : list (list rgb)) (x y : nat) : rgb :=
  match g !! y with
  | Some row => match row !! x with
                | Some c => c
                | None => Black
                end
  | None => Black
  end.

(** Modelled from the spec: the accumulation step of Pillow's dithering,
    [d] is added to the working value at [(x, y)]; a neighbour outside the
    image receives nothing. *)
Definition accumulate (g : list (list rgb)) (x y : Z) (d : rgb) : list (list rgb) :=
  if (0 <=? x) && (0 <=? y)
  then alter (alter (fun c => rgb_add c d) (Z.to_nat x)) (Z.to_nat y) g
  else g.

(** Modelled from the spec: one pixel of Pillow's dithering; emit the
    nearest index, diffuse the error to the right, below-left, below and
    below-right neighbours. *)
Definition dither_pixel (pal : list rgb) (g : list (list rgb)) (x y : nat)
  : list (list rgb) * (Z * rgb) :=
  let c := work_at g x y in
  let i := nearest pal c in
  let e := rgb_sub c (List.nth (Z.to_nat i) pal Black) in
  let xz := Z.of_nat x in
  let yz := Z.of_nat y in
  let g := accumulate g (xz + 1) yz (rgb_share 7 e) in
  let g := accumulate g (xz - 1) (yz + 1) (rgb_share 3 e) in
  let g := accumulate g xz (yz + 1) (rgb_share 5 e) in
  let g := accumulate g (xz + 1) (yz + 1) (rgb_share 1 e) in
  (g, (i, e)).

(** Modelled from the spec: the raster scan of Pillow's dithering within a
    row, [n] pixels of row [y] from column [x] on, left to right. *)
Fixpoint dither_row (pal : list rgb) (g : list (list rgb)) (y x n : nat)
  : list (list rgb) * list (Z * rgb) :=
  match n with
  | O => (g, [])
  | S n' =>
      let '(g1, o) := dither_pixel pal g x y in
      let '(g2, os) := dither_row pal g1 y (S x) n' in
      (g2, o :: os)
  end.

(** Modelled from the spec: the raster scan of Pillow's dithering over the
    rows, [n] rows from row [y] on, top to bottom. *)
Fixpoint dither_rows (pal : list rgb) (g : list (list rgb)) (y n : nat)
  : list (list (Z * rgb)) :=
  match n with
  | O => []
  | S n' =>
      let w := match g !! y with Some row => length row | None => O end in
      let '(g1, os) := dither_row pal g y 0 w in
      os :: dither_rows pal g1 (S y) n'
  end.

(** Modelled from the spec: the Floyd-Steinberg pass of Pillow's
    [Image.quantize] (raster scan, nearest palette colour, error =
    working value minus chosen colour, diffused with 7/16, 3/16, 5/16 and
    1/16).  Every pixel yields its index and its quantization error. *)
Definition dither (pal : list rgb) (img : list (list rgb)) : list (list (Z * rgb)) :=
  dither_rows pal img 0 (length img).

(** Modelled from the spec: [img.quantize(colors=6, palette=p,
    dither=FLOYDSTEINBERG)]; the result carries a copy of the palette of
    [p] and the emitted indices. *)
Definition quantize (p : PImage) (img : list (list rgb)) : PImage :=
  mkPImage (p_palette p)
           (List.map (List.map fst) (dither (triples (p_palette p)) img)).

(** The errors diffused while quantizing. *)
Definition diffused (p : PImage) (img : list (list rgb)) : list (list rgb) :=
  List.map (List.map snd) (dither (triples (p_palette p)) img).

(** [Image.open(image_path).convert('RGB')]: the decoded file, or the
    exception of the decoder. *)
Variable open_rgb : string -> result (list (list rgb)).

(** Lines 54-65. *)
Definition resize_and_dither_image (image_path : string) : result PImage :=
  do img <- open_rgb image_path;
  let quantized := quantize PALETTE_IMAGE img in
  ret quantized.

(** Lines 68-77. *)
Definition convert_to_display_format (image_path : string) : result (list Z) :=
  do quantized <- resize_and_dither_image image_path;
  pack_pixels (p_pixels quantized).

End Quantizer.

(** A byte both of whose nibbles are palette indices. *)
Definition nibbles_valid (b : Z) : Prop :=
  0 <= Z.shiftr b 4 <= 5 /\ 0 <= Z.land b 15 <= 5.

(** A decoded image of [w] columns and [h] rows. *)
Definition rgb_image (w h : nat) (img : list (list rgb)) : Prop :=
  length img = h /\ Forall (fun row => length row = w) img.

(** An image all of whose pixels are palette colours. *)
Definition palette_valued (img : list (list rgb)) : Prop :=
  Forall (Forall (fun c => In c six_colors)) img.

(** Error shares rounded towards zero, as integer code computes them. *)
Definition share_trunc (k e : Z) : Z := Z.quot (k * e) 16.

(** A solid pure-red 10x10 image. *)
Definition red_10x10 : list (list rgb) := List.repeat (List.repeat Red 10) 10.

(** A decoder that finds the red image at every path. *)
Definition open_red (path : string) : result (list (list rgb)) := inr red_10x10.

(** ** The geometry fitter: [_resize_and_rotate_image] of [app_utils.py] *)

(** A full-colour image: its size and the colour at every coordinate. *)
Record Image : Type := mkImage {
  width : Z;
  height : Z;
  pixel : Z -> Z -> rgb
}.

(** What the fitter reads of the device configuration:
    [get_config("orientation")] and [get_resolution()]. *)
Record DeviceConfig : Type := mkDeviceConfig {
  orientation : string;
  resolution : Z * Z
}.

(** [Image.new("RGB", size, color)] *)
Definition Image_new (size : Z * Z) (color : rgb) : Image :=
  mkImage (fst size) (snd size) (fun _ _ => color).

(** [canvas.paste(im, (x0, y0))]: the box of [im] whose upper left corner is
    at [(x0, y0)] is overwritten, the size of [canvas] stays. *)
Definition inside (x0 y0 w h x y : Z) : bool :=
  (x0 <=? x) && (x <? x0 + w) && (y0 <=? y) && (y <? y0 + h).

Definition paste (canvas im : Image) (at_ : Z * Z) : Image :=
  let '(x0, y0) := at_ in
  mkImage (width canvas) (height canvas)
          (fun x y => if inside x0 y0 (width im) (height im) x y
                      then pixel im (x - x0) (y - y0)
                      else pixel canvas x y).

(** [im.rotate(90, expand=True)]: a quarter turn counter-clockwise, the
    size is swapped. *)
Definition rotate90_expand (im : Image) : Image :=
  mkImage (height im) (width im) (fun x y => pixel im (width im - 1 - y) x).

Section Geometry.

(** The resampling kernels of Pillow compute colours in floating point;
    only the sizes they produce are modelled, the colours are left to
    these functions. *)
Variable fit_px : Image -> Z * Z -> Z -> Z -> rgb.
Variable resize_px : Image -> Z * Z -> Z -> Z -> rgb.
Variable blur_px : Image -> Z * Z -> Z -> Z -> rgb.
Variable contain : Image -> Z * Z -> Image.

(** [int(d * (1 - border_percent / 100))], a floating-point product
    truncated to an integer; [shrink_dim] below computes it in IEEE
    double precision. *)
Variable scale_dim : Z -> Z -> Z.

(** [im.resize(size, Image.Resampling.LANCZOS)]; Pillow refuses a size
    with a dimension below 1 ("height and width must be > 0"). *)
Definition resize (im : Image) (size : Z * Z) : result Image :=
  if (fst size <? 1) || (snd size <? 1)
  then raise (ValueError "height and width must be > 0")
  else ret (mkImage (fst size) (snd size) (resize_px im size)).

(** [ImageOps.fit(im, size, Image.Resampling.LANCZOS)]: centre crop to the
    aspect ratio of [size], then a resize to [size]. *)
Definition ImageOps_fit (im : Image) (size : Z * Z) : result Image :=
  if (fst size <? 1) || (snd size <? 1)
  then raise (ValueError "height and width must be > 0")
  else ret (mkImage (fst size) (snd size) (fit_px im size)).

(** Modelled from the spec: [pad_image_blur] of [utils/image_utils.py],
    which the sources do not include.  Section 4.2: the source is scaled
    preserving its aspect ratio ([contain]) and laid, centred, over a
    background of the size of the target box that is a blurred, extended
    version of the source itself ([blur_px]). *)
Definition pad_image_blur (image : Image) (dimensions : Z * Z) : Image :=
  let bkg := mkImage (fst dimensions) (snd dimensions) (blur_px image dimensions) in
  let img := contain image dimensions in
  paste bkg img ((fst dimensions - width img) / 2, (snd dimensions - height img) / 2).

(** Lines 200-234. *)
Definition _resize_and_rotate_image (image : Image) (device_config : DeviceConfig)
           (border_percent : Z) : result Image :=
  let orientation := orientation device_config in
  let display_size := resolution device_config in
  do image <-
    (if String.eqb orientation "vertical" then
       let target_size := (snd display_size, fst display_size) in
       if height image <? width image then
         let fitted_img := pad_image_blur image target_size in
         ret (rotate90_expand fitted_img)
       else
         do fitted_img <- ImageOps_fit image target_size;
         ret (rotate90_expand fitted_img)
     else
       ImageOps_fit image display_size);
  if 0 <? border_percent then
    let canvas_size := (width image, height image) in
    let new_width := scale_dim (fst canvas_size) border_percent in
    let new_height := scale_dim (snd canvas_size) border_percent in
    do shrunk_image <- resize image (new_width, new_height);
    let white_canvas := Image_new canvas_size White in
    let paste_x := (fst canvas_size - new_width) / 2 in
    let paste_y := (snd canvas_size - new_height) / 2 in
    let white_canvas := paste white_canvas shrunk_image (paste_x, paste_y) in
    ret white_canvas
  else
    ret image.

End Geometry.

(** Kernels and inputs for the examples: a kernel that paints black, a
    [contain] that returns its argument, a white 1600x1200 photo. *)
Definition black_px (im : Image) (size : Z * Z) (x y : Z) : rgb := Black.
Definition contain_same (im : Image) (size : Z * Z) : Image := im.
Definition photo_1600x1200 : Image := mkImage 1600 1200 (fun _ _ => White).

(** The panel of the repository (800x480, mounted upright) and a small
    panel of 128x80 pixels. *)
Definition spectra6_vertical : DeviceConfig := mkDeviceConfig "vertical" (800, 480).
Definition small_panel : DeviceConfig := mkDeviceConfig "horizontal" (128, 80).

(** The product [d * (1 - b / 100)] computed exactly and truncated. *)
Definition scale_exact (d b : Z) : Z := Z.quot (d * (100 - b)) 100.

(** The truncated floating-point product stays within one pixel below the
    exact value [d * (100 - b) / 100]. *)
Definition scale_accurate (scale_dim : Z -> Z -> Z) : Prop :=
  forall d b, 0 <= d -> 0 < b < 100 ->
    d * (100 - b) - 100 <= 100 * scale_dim d b <= d * (100 - b).

(** ** Kernels for the padding of section 4.2 *)

(** Modelled from the spec: "the source is scaled ... preserving aspect
    ratio".  The scaled source has the largest size of the source's aspect
    ratio that fits the box (at least one pixel), and each of its pixels
    is the pixel of the source at the corresponding position. *)
Definition spec_contain (image : Image) (dimensions : Z * Z) : Image :=
  let '(box_w, box_h) := dimensions in
  let '(new_w, new_h) :=
    if height image * box_w <=? width image * box_h
    then (box_w, Z.max 1 (height image * box_w / width image))
    else (Z.max 1 (width image * box_h / height image), box_h) in
  mkImage new_w new_h
          (fun x y => pixel image (x * width image / new_w) (y * height image / new_h)).

(** Modelled from the spec: the source "extended" to the box.  The centre
    part of the source that has the aspect ratio of the box is stretched
    over the box. *)
Definition spec_cover (image : Image) (dimensions : Z * Z) : Image :=
  let '(box_w, box_h) := dimensions in
  mkImage box_w box_h
          (fun x y =>
             if height image * box_w <=? width image * box_h
             then
               let crop_w := box_w * height image / box_h in
               pixel image ((width image - crop_w) / 2 + x * crop_w / box_w)
                           (y * height image / box_h)
             else
               let crop_h := box_h * width image / box_w in
               pixel image (x * width image / box_w)
                           ((height image - crop_h) / 2 + y * crop_h / box_h)).

(** The mean of a list of colours, channel by channel. *)
Definition rgb_mean (samples : list rgb) : rgb :=
  let n := Z.of_nat (length samples) in
  let '(r, g, b) := fold_right rgb_add (0, 0, 0) samples in
  (r / n, g / n, b / n).

(** The offsets [-r, ..., r] of a box of radius [r]. *)
Definition window (r : nat) : list Z :=
  List.map (fun k => Z.of_nat k - Z.of_nat r) (seq 0 (2 * r + 1)).

Definition clamp (hi v : Z) : Z := Z.max 0 (Z.min hi v).

(** The pixels of [im] in the box of radius [r] around [(x, y)]; a
    position outside the image stands for the nearest pixel of its edge. *)
Definition box_samples (r : nat) (im : Image) (x y : Z) : list rgb :=
  flat_map
    (fun dy =>
       List.map (fun dx => pixel im (clamp (width im - 1) (x + dx))
                                    (clamp (height im - 1) (y + dy)))
                (window r))
    (window r).

(** Modelled from the spec: a blur.  Every pixel is the mean of the box
    around it. *)
Definition box_blur (r : nat) (im : Image) : Image :=
  mkImage (width im) (height im) (fun x y => rgb_mean (box_samples r im x y)).

(** Modelled from the spec: the "blurred/extended version of the source
    image itself" that fills the background of [pad_image_blur]. *)
Definition spec_blur_px (r : nat) (image : Image) (dimensions : Z * Z) : Z -> Z -> rgb :=
  pixel (box_blur r (spec_cover image dimensions)).

(** A 1600x1200 photo whose colour changes from pixel to pixel. *)
Definition gradient_1600x1200 : Image :=
  mkImage 1600 1200 (fun x y => (x / 8, y / 8, 128)).

(** That photo padded to the box of the upright 800x480 panel, with a
    blur of radius 2. *)
Definition padded_gradient : Image :=
  pad_image_blur (spec_blur_px 2) spec_contain gradient_1600x1200 (480, 800).

(** ** The border arithmetic in double precision: lines 222-224 *)

(** Python's conversion of an integer to a float, exact below 2^53. *)
Fixpoint float_of_pos (p : positive) : PrimFloat.float :=
  match p with
  | xH => PrimFloat.one
  | xO q => PrimFloat.mul PrimFloat.two (float_of_pos q)
  | xI q => PrimFloat.add (PrimFloat.mul PrimFloat.two (float_of_pos q)) PrimFloat.one
  end.

Definition float_of_Z (z : Z) : PrimFloat.float :=
  match z with
  | Z0 => PrimFloat.zero
  | Zpos p => float_of_pos p
  | Zneg p => PrimFloat.opp (float_of_pos p)
  end.

(** The largest power of two not above [f], for [p] a power of two with
    [p <= f], as a float and as an integer. *)
Fixpoint magnitude (fuel : nat) (p : PrimFloat.float) (pz : Z) (f : PrimFloat.float)
  : PrimFloat.float * Z :=
  match fuel with
  | O => (p, pz)
  | S fuel' =>
      if PrimFloat.leb (PrimFloat.mul p PrimFloat.two) f
      then magnitude fuel' (PrimFloat.mul p PrimFloat.two) (pz * 2) f
      else (p, pz)
  end.

(** The binary digits of the integer part of [rem], from the power of two
    [p] down to 1; every subtraction is exact. *)
Fixpoint floor_bits (fuel : nat) (p : PrimFloat.float) (pz : Z)
         (rem : PrimFloat.float) (acc : Z) : Z :=
  match fuel with
  | O => acc
  | S fuel' =>
      if PrimFloat.ltb p PrimFloat.one then acc
      else if PrimFloat.leb p rem
           then floor_bits fuel' (PrimFloat.div p PrimFloat.two) (pz / 2)
                           (PrimFloat.sub rem p) (acc + pz)
           else floor_bits fuel' (PrimFloat.div p PrimFloat.two) (pz / 2) rem acc
  end.

Definition floor_float (f : PrimFloat.float) : Z :=
  if PrimFloat.ltb f PrimFloat.one then 0
  else let '(p, pz) := magnitude 1100 PrimFloat.one 1 f in floor_bits 1100 p pz f 0.

(** [int(f)] on a finite float: truncation towards zero.  (Python raises
    on an infinity or a NaN, which a product of integers below 2^53 never
    is.) *)
Definition int_of_float (f : PrimFloat.float) : Z :=
  if PrimFloat.ltb f PrimFloat.zero then - floor_float (PrimFloat.opp f)
  else floor_float f.

(** Lines 222-224: [shrink_factor = 1 - (border_percent / 100)] and
    [int(d * shrink_factor)], for an integer [border_percent]. *)
Definition shrink_dim (d border_percent : Z) : Z :=
  let shrink_factor :=
    PrimFloat.sub PrimFloat.one
      (PrimFloat.div (float_of_Z border_percent) (float_of_Z 100)) in
  int_of_float (PrimFloat.mul (float_of_Z d) shrink_factor).

(** The check that [shrink_dim d b] is within one pixel below the exact
    product. *)
Definition within_one (d b : Z) : bool :=
  (d * (100 - b) - 100 <=? 100 * shrink_dim d b) &&
  (100 * shrink_dim d b <=? d * (100 - b)).

(** The integers [start, start + 1, ...], [n] of them. *)
Fixpoint range_Z (start : Z) (n : nat) : list Z :=
  match n with
  | O => []
  | S k => start :: range_Z (start + 1) k
  end.

(** A small panel mounted upright. *)
Definition small_panel_vertical : DeviceConfig := mkDeviceConfig "vertical" (128, 80).

(** ** Strings of the Python library *)

Definition lower_ascii (c : ascii) : ascii :=
  let n := nat_of_ascii c in
  if ((65 <=? n) && (n <=? 90))%nat then ascii_of_nat (n + 32) else c.

(** [s.lower()] (ASCII letters). *)
Definition lower (s : string) : string :=
  string_of_list_ascii (List.map lower_ascii (list_ascii_of_string s)).

(** [s.endswith(suffix)] *)
Definition endswith (s suffix : string) : bool :=
  let n := String.length s in
  let m := String.length suffix in
  (m <=? n)%nat && String.eqb (String.substring (n - m) m s) suffix.

(** The characters after the last occurrence of [sep], or all of them. *)
Fixpoint after_last (sep : ascii) (l : list ascii) : list ascii :=
  match l with
  | [] => []
  | c :: t =>
      if existsb (Ascii.eqb sep) t then after_last sep t
      else if Ascii.eqb sep c then t
      else l
  end.

(** [os.path.basename(p)] *)
Definition basename (p : string) : string :=
  string_of_list_ascii (after_last "/"%char (list_ascii_of_string p)).

(** The extension found by [os.path.splitext]: from the last dot of the
    last path component on, unless only dots come before it. *)
Fixpoint ext_of (seen_name : bool) (l : list ascii) : list ascii :=
  match l with
  | [] => []
  | c :: t =>
      if Ascii.eqb c "."%char
      then (if existsb (Ascii.eqb "."%char) t then ext_of seen_name t
            else if seen_name then l else [])
      else ext_of true t
  end.

(** [os.path.splitext(p)[1]] *)
Definition splitext_ext (p : string) : string :=
  string_of_list_ascii
    (ext_of false (after_last "/"%char (list_ascii_of_string p))).

(** [s.replace('.', '')] *)
Definition remove_dots (s : string) : string :=
  string_of_list_ascii
    (List.filter (fun c => negb (Ascii.eqb c "."%char)) (list_ascii_of_string s)).

(** [int(x)] on a float: truncation towards zero. *)
Definition py_int (x : Q) : Z := Z.quot (Qnum x) (Zpos (Qden x)).

(** ** The conditional request of [get_current_image]: lines 108-148 *)

Inductive Body : Type :=
| EmptyBody
| BytesBody (data : list Z)
| JsonError (msg : string)
| FileBody (path : string).

(** A response: status, body, and the headers the handler sets itself;
    [None] stands for a header the handler leaves to Flask (which fills in
    the [Content-Length] of the answers it builds from their bodies).  The
    [Last-Modified] header is kept as the timestamp it is formatted from:
    line 117 turns it into the local wall-clock time with
    [datetime.fromtimestamp], and lines 138 and 146 print that time
    followed by the letters GMT. *)
Record Response : Type := mkResponse {
  status : Z;
  body : Body;
  mimetype : string;
  last_modified : option Z;
  cache_control : option string;
  content_length : option Z
}.

Record Request : Type := mkRequest {
  if_modified_since : option string;   (* request.headers.get('If-Modified-Since') *)
  format_arg : option string           (* request.args.get('format') *)
}.

Definition current_image_path : string := "static/images/current_image.png".

Section Server.

Variable share : Z -> Z -> Z.
Variable open_rgb : string -> result (list (list rgb)).

(** [os.path.exists] and [os.path.getmtime]. *)
Variable path_exists : string -> bool.
Variable getmtime : string -> Q.

(** [datetime.strptime(s, '%a, %d %b %Y %H:%M:%S %Z')]: the exception of
    the parser, or the naive datetime it returns.  A naive datetime is a
    calendar date and a time of day without a zone; it is kept as the
    number of seconds its fields count from 1970-01-01 00:00:00, which is
    the time the header asserts, an HTTP-date being in GMT. *)
Variable strptime : string -> result Z.

(** The zone of the server: the seconds east of UTC its clocks show at a
    local wall-clock time. *)
Variable utc_offset : Z -> Z.

(** The exception [timestamp()] raises for a datetime outside the range of
    the platform's time functions, [None] inside it. *)
Variable timestamp_raises : Z -> option exn.

(** [naive.timestamp()]: a naive datetime is read as local time, whatever
    zone name [%Z] matched in the text. *)
Definition timestamp (naive : Z) : result Z :=
  match timestamp_raises naive with
  | Some e => raise e
  | None => ret (naive - utc_offset naive)
  end.

(** Flask's [send_file(path, mimetype=...)].  It is conditional by default:
    it reads the validators and the range of the current request itself
    and answers 200 with the file, 206, 304 or 416, or raises. *)
Variable send_file : Request -> string -> string -> result Response.

(** Lines 119-130: [true] when the handler answers 304. *)
Definition not_modified (file_mtime : Z) (header : option string) : result bool :=
  match header with
  | Some if_modified_since =>
      if String.eqb if_modified_since "" then ret false
      else
        match (do client_mtime <- strptime if_modified_since;
               timestamp client_mtime) with
        | inr client_mtime_seconds =>
            if file_mtime <=? client_mtime_seconds then ret true else ret false
        | inl (ValueError _) | inl (AttributeError _) => ret false
        | inl e => raise e
        end
  | None => ret false
  end.

(** Lines 132-148: the answer once the gate is passed. *)
Definition serve_image (last_modified : Z) (request : Request) : result Response :=
  let image_path := current_image_path in
  let output_format :=
    lower (match format_arg request with Some f => f | None => "spectra6" end) in
  if String.eqb output_format "raw" || String.eqb output_format "spectra6" then
    match convert_to_display_format share open_rgb image_path with
    | inr packed_data =>
        ret (mkResponse 200 (BytesBody packed_data) "application/octet-stream"
                        (Some last_modified) (Some "no-cache")
                        (Some (Z.of_nat (length packed_data))))
    | inl e =>
        ret (mkResponse 500 (JsonError (exn_message e)) "application/json"
                        None None None)
    end
  else
    do response <- send_file request image_path "image/png";
    ret (mkResponse (status response) (body response) (mimetype response)
                    (Some last_modified) (Some "no-cache")
                    (content_length response)).

Definition get_current_image (request : Request) : result Response :=
  let image_path := current_image_path in
  if negb (path_exists image_path) then
    ret (mkResponse 404 (JsonError "Image not found") "application/json" None None None)
  else
    let file_mtime := py_int (getmtime image_path) in
    let last_modified := file_mtime in
    do fresh <- not_modified file_mtime (if_modified_since request);
    if fresh then
      ret (mkResponse 304 EmptyBody "text/html" None None None)
    else serve_image last_modified request.

End Server.

(** An environment for the examples: the image file exists, was modified
    half a second after 1700000000 (2023-11-14 22:13:20 GMT), and the
    parser knows one date, 1700006400 seconds after 1970-01-01 00:00:00. *)
Definition sample_exists (path : string) : bool := true.
Definition sample_mtime (path : string) : Q := Qmake 3400000001 2.
Definition sample_strptime (s : string) : result Z :=
  if String.eqb s "Wed, 15 Nov 2023 00:00:00 GMT" then ret 1700006400
  else raise (ValueError "time data does not match format").

(** A file modified at 2023-11-15 01:00:00 GMT, an hour after that date. *)
Definition newer_mtime (path : string) : Q := inject_Z 1700010000.

(** Zones without daylight saving: UTC, New York in winter, Tokyo. *)
Definition zone_utc (naive : Z) : Z := 0.
Definition zone_new_york (naive : Z) : Z := -18000.
Definition zone_tokyo (naive : Z) : Z := 32400.
Definition in_range (naive : Z) : option exn := None.

(** [send_file] for a request without validators or range: the file. *)
Definition sample_send_file (request : Request) (path mime : string) : result Response :=
  ret (mkResponse 200 (FileBody path) mime (Some 1700000000) None (Some 312)).

(** ** The upload handler: [handle_request_files] of [app_utils.py] *)

(** An uploaded file: its name and the bytes of its stream. *)
Record FileStorage : Type := mkFileStorage {
  filename : string;
  stream : list Z
}.

(** A value of [file_location_map]: one path, or a list for a key ending
    in [[]]. *)
Inductive Location : Type :=
| OnePath (p : string)
| PathList (ps : list string).

(** The files on disk, by path. *)
Definition Disk : Type := gmap string (list Z).

(** [form_data.get(key)], [form_data.getlist(key)] and [key in form_data]
    on a multi-dict kept as its list of items. *)
Definition form_get (form_data : list (string * string)) (key : string) : option string :=
  match List.filter (fun kv => String.eqb (fst kv) key) form_data with
  | kv :: _ => Some (snd kv)
  | [] => None
  end.

Definition form_getlist (form_data : list (string * string)) (key : string) : list string :=
  List.map snd (List.filter (fun kv => String.eqb (fst kv) key) form_data).

Definition form_mem (form_data : list (string * string)) (key : string) : bool :=
  existsb (fun kv => String.eqb (fst kv) key) form_data.

Definition allowed_file_extensions : gset string :=
  list_to_set ["pdf"; "png"; "jpg"; "jpeg"; "gif"; "webp"; "heif"; "heic"].

Definition image_extensions : gset string :=
  list_to_set ["png"; "jpg"; "jpeg"; "gif"; "webp"; "heif"; "heic"].

Section Upload.

Variable fit_px : Image -> Z * Z -> Z -> Z -> rgb.
Variable resize_px : Image -> Z * Z -> Z -> Z -> rgb.
Variable blur_px : Image -> Z * Z -> Z -> Z -> rgb.
Variable contain : Image -> Z * Z -> Image.
Variable scale_dim : Z -> Z -> Z.

(** [Image.open] on the bytes of a file, with the reading of the pixel
    data by the calls that follow it in the [try] block: the decoded
    image, or the exception of the decoder. *)
Variable Image_open : list Z -> result Image.

(** [img.save(path)]: the bytes written, or the exception of the encoder. *)
Variable Image_save : Image -> string -> result (list Z).

Variable exif_transpose : Image -> Image.

(** [int(s)] on a string. *)
Variable parse_int : string -> result Z.

(** The directory [resolve_path] starts from. *)
Variable src_dir : string.

(** Lines 44-51. *)
Definition resolve_path (file_path : string) : string :=
  src_dir ++ "/" ++ file_path.

(** The body of the [try] block, lines 174-183: the bytes to be saved. *)
Definition process_image (file : FileStorage) (form_data : list (string * string))
           (device_config : option DeviceConfig) (file_path : string) : result (list Z) :=
  do img <- Image_open (stream file);
  let img := exif_transpose img in
  do img <-
    match device_config with
    | Some cfg =>
        do border_percent <-
          match form_get form_data "borderPercent" with
          | Some s => parse_int s
          | None => ret 0
          end;
        _resize_and_rotate_image fit_px resize_px blur_px contain scale_dim
                                 img cfg border_percent
    | None => ret img
    end;
  Image_save img file_path.

(** What the handler changes: the location map it returns, the disk, and
    the warnings it logs. *)
Record UploadState : Type := mkUploadState {
  file_location_map : gmap string Location;
  disk : Disk;
  warnings : list string
}.

(** One turn of the loop of lines 156-196. *)
Definition handle_file (form_data : list (string * string))
           (device_config : option DeviceConfig)
           (st : UploadState) (entry : string * FileStorage) : UploadState :=
  let '(key, file) := entry in
  let is_list := endswith key "[]" in
  let file_name := filename file in
  if String.eqb file_name "" then st
  else
    let extension := remove_dots (splitext_ext file_name) in
    if String.eqb extension ""
       || negb (bool_decide (lower extension ∈ allowed_file_extensions)) then st
    else
      let file_name := basename file_name in
      let file_save_dir := resolve_path "static/images/saved" in
      let file_path := file_save_dir ++ "/" ++ file_name in
      let st :=
        if bool_decide (lower extension ∈ image_extensions) then
          match process_image file form_data device_config file_path with
          | inr bytes =>
              mkUploadState (file_location_map st)
                            (<[file_path := bytes]> (disk st)) (warnings st)
          | inl e =>
              (* logger.warning(...); file.seek(0); file.save(file_path) *)
              mkUploadState (file_location_map st)
                            (<[file_path := stream file]> (disk st))
                            (warnings st ++
                               ["Image processing error for " ++ file_name ++ ": "
                                  ++ exn_message e])
          end
        else
          mkUploadState (file_location_map st)
                        (<[file_path := stream file]> (disk st)) (warnings st) in
      let locations :=
        if is_list then
          match file_location_map st !! key with
          | Some (PathList ps) => <[key := PathList (ps ++ [file_path])]> (file_location_map st)
          (* not reached: a key ending in [] only ever holds a list *)
          | Some (OnePath _) => file_location_map st
          | None => <[key := PathList [file_path]]> (file_location_map st)
          end
        else <[key := OnePath file_path]> (file_location_map st) in
      mkUploadState locations (disk st) (warnings st).

(** Lines 146-197. *)
Definition handle_request_files (request_files : list (string * FileStorage))
           (form_data : list (string * string)) (device_config : option DeviceConfig)
           (disk0 : Disk) : UploadState :=
  (* existing file locations provided as part of the form data *)
  let existing :=
    fold_left
      (fun (m : gmap string Location) key =>
         if form_mem form_data key then
           <[key := if endswith key "[]"
                    then PathList (form_getlist form_data key)
                    else match form_get form_data key with
                         | Some p => OnePath p
                         | None => OnePath ""
                         end]> m
         else m)
      (List.map fst request_files) ∅ in
  (* new files in the request *)
  fold_left (handle_file form_data device_config) request_files
            (mkUploadState existing disk0 []).

End Upload.

(** ** The image-upload plugin: [image_upload.py] *)

(** [l[i]] on a Python list: negative indices count from the end. *)
Definition py_index {A : Type} (l : list A) (i : Z) : result A :=
  let n := Z.of_nat (length l) in
  let j := if i <? 0 then i + n else i in
  if (0 <=? j) && (j <? n) then
    match l !! Z.to_nat j with
    | Some a => ret a
    | None => raise (IndexError "list index out of range")
    end
  else raise (IndexError "list index out of range").

(** The settings the plugin reads and writes. *)
Record Settings : Type := mkSettings {
  image_index : option Z;              (* settings.get("image_index", 0) *)
  imageFiles : option (list string);   (* settings.get("imageFiles[]") *)
  randomize : option string            (* settings.get('randomize') *)
}.

Section ImageUpload.

(** [Image.open] on the bytes of a file.  Pillow identifies the file from
    its header and reads the pixel data only when the image is used:
    [inl] is an exception of the call itself, and the image it returns
    stands for the image object, its data read or not. *)
Variable Image_open : list Z -> result Image.

(** [random.randrange(0, n)] *)
Variable randrange : Z -> result Z.

(** [Image.open(path)] on the disk. *)
Definition Image_open_path (d : Disk) (path : string) : result Image :=
  match d !! path with
  | Some bytes => Image_open bytes
  | None => raise (OSError "No such file or directory")
  end.

(** Lines 11-20.  The second component lists the messages passed to
    [logger.error]. *)
Definition open_image (d : Disk) (img_index : Z) (image_locations : option (list string))
  : result Image * list string :=
  match image_locations with
  | None | Some [] => (raise (RuntimeError "No images provided."), [])
  | Some locs =>
      match (do path <- py_index locs img_index; Image_open_path d path) with
      | inr image => (ret image, [])
      | inl e =>
          (raise (RuntimeError "Failed to read image file."),
           ["Failed to read image file: " ++ exn_message e])
      end
  end.

(** Lines 23-43: the image and the settings as the call leaves them. *)
Definition generate_image (d : Disk) (settings : Settings)
  : result Image * Settings * list string :=
  let img_index := match image_index settings with Some i => i | None => 0 end in
  match imageFiles settings with
  | None => (raise (TypeError "object of type 'NoneType' has no len()"), settings, [])
  | Some image_locations =>
      let n := Z.of_nat (length image_locations) in
      let img_index := if n <=? img_index then 0 else img_index in
      let is_random :=
        match randomize settings with
        | Some r => String.eqb r "true"
        | None => false
        end in
      if is_random then
        match randrange n with
        | inl e => (raise e, settings, [])
        | inr img_index =>
            match open_image d img_index (Some image_locations) with
            | (inr image, log) =>
                (ret image,
                 mkSettings (Some img_index) (imageFiles settings) (randomize settings),
                 log)
            | (inl e, log) => (raise e, settings, log)
            end
        end
      else
        match open_image d img_index (Some image_locations) with
        | (inr image, log) =>
            let img_index := (img_index + 1) mod n in
            (ret image,
             mkSettings (Some img_index) (imageFiles settings) (randomize settings),
             log)
        | (inl e, log) => (raise e, settings, log)
        end
  end.

End ImageUpload.

(** An environment for the examples: a decoder that identifies no image, an
    encoder that writes nothing, and an upload of three bytes under the
    name [photo.png]. *)
Definition corrupt_open (bytes : list Z) : result Image :=
  raise (OSError "cannot identify image file").
Definition sample_save (im : Image) (path : string) : result (list Z) := ret [].
Definition sample_exif (im : Image) : Image := im.
Definition sample_parse_int (s : string) : result Z := ret 0.
Definition sample_randrange (n : Z) : result Z := ret 0.
Definition corrupt_upload : FileStorage := mkFileStorage "photo.png" [1; 2; 3].
Definition saved_photo : string := "src/static/images/saved/photo.png".

(** The handler run on the corrupt upload alone, nothing on disk before. *)
Definition corrupt_upload_state : UploadState :=
  handle_request_files black_px black_px black_px contain_same scale_exact
                       corrupt_open sample_save sample_exif sample_parse_int "src"
                       [("imageFile", corrupt_upload)] [] None ∅.

(** Settings that select the saved upload. *)
Definition sample_settings : Settings := mkSettings None (Some [saved_photo]) None.

(** * Further functions of the three files *)

(** ** [preview_image]: lines 85-105 of [main.py] *)

(** The body of a preview response: the PNG, kept as the pixels it encodes
    without loss, or an error message. *)
Inductive PreviewBody : Type :=
| PreviewPng (pixels : list (list rgb))
| PreviewError (msg : string).

Record PreviewResponse : Type := mkPreviewResponse {
  preview_status : Z;
  preview_body : PreviewBody;
  preview_mimetype : string
}.

Section Preview.

Variable share : Z -> Z -> Z.
Variable open_rgb : string -> result (list (list rgb)).
Variable path_exists : string -> bool.

Definition preview_image : PreviewResponse :=
  let image_path := current_image_path in
  if negb (path_exists image_path) then
    mkPreviewResponse 404 (PreviewError "Image not found") "application/json"
  else
    match resize_and_dither_image share open_rgb image_path with
    | inr quantized =>
        (* Convert palette image back to RGB for PNG output *)
        let rgb_image := to_rgb quantized in
        mkPreviewResponse 200 (PreviewPng rgb_image) "image/png"
    | inl e =>
        mkPreviewResponse 500 (PreviewError (exn_message e)) "application/json"
    end.

End Preview.

(** ** Fonts: lines 12-35 and 75-103 of [app_utils.py] *)

(** An entry of a font family: its ["font-weight"] and its ["file"]. *)
Record FontVariant : Type := mkFontVariant {
  font_weight : string;
  file : string
}.

(** The dictionary [FONT_FAMILIES], in insertion order. *)
Definition FONT_FAMILIES : list (string * list FontVariant) :=
  [ ("Dogica", [ mkFontVariant "normal" "dogicapixel.ttf";
                 mkFontVariant "bold" "dogicapixelbold.ttf" ]);
    ("Jost", [ mkFontVariant "normal" "Jost.ttf";
               mkFontVariant "bold" "Jost-SemiBold.ttf" ]);
    ("Napoli", [ mkFontVariant "normal" "Napoli.ttf" ]);
    ("DS-Digital", [ mkFontVariant "normal" "DS-DIGI/DS-DIGI.TTF" ]) ].

(** [FONT_FAMILIES[font_name]], when [font_name in FONT_FAMILIES]. *)
Definition family_variants (font_name : string) : option (list FontVariant) :=
  match List.find (fun kv => String.eqb (fst kv) font_name) FONT_FAMILIES with
  | Some kv => Some (snd kv)
  | None => None
  end.

(** An entry of the list [get_fonts] returns. *)
Record FontInfo : Type := mkFontInfo {
  info_family : string;
  info_url : string;
  info_weight : string;
  info_style : string
}.

Section Fonts.

Variable src_dir : string.

(** [ImageFont.truetype(path, size)]: the font, or the exception it
    raises (an OSError when the file cannot be opened or is no font). *)
Variable Font : Type.
Variable truetype : string -> Q -> result Font.

(** Lines 75-91.  The second component lists the warnings. *)
Definition get_font (font_name : string) (font_size : Q) (font_weight_ : string)
  : result (option Font) * list string :=
  match family_variants font_name with
  | Some font_variants =>
      let font_entry :=
        List.find (fun entry => String.eqb (font_weight entry) font_weight_) font_variants in
      match (match font_entry with
             | Some entry => ret entry
             | None => py_index font_variants 0   (* first available variant *)
             end) with
      | inr entry =>
          let font_path := resolve_path src_dir ("static/fonts/" ++ file entry) in
          (do font <- truetype font_path font_size; ret (Some font), [])
      | inl e => (raise e, [])
      end
  | None =>
      (ret None, ["Requested font not found: font_name=" ++ font_name]%string)
  end.

(** Lines 93-103. *)
Definition get_fonts : list FontInfo :=
  List.concat
    (List.map
       (fun fam : string * list FontVariant =>
          List.map
            (fun variant =>
               mkFontInfo (fst fam)
                          (resolve_path src_dir ("static/fonts/" ++ file variant))
                          (font_weight variant)
                          "normal")
            (snd fam))
       FONT_FAMILIES).

End Fonts.

(** ** [parse_form]: lines 139-144 of [app_utils.py] *)

(** A value of the dictionary [parse_form] returns. *)
Inductive FormValue : Type :=
| FormOne (v : string)
| FormMany (vs : list string).

(** [request_form.to_dict()]: the first value of every key. *)
Definition form_to_dict (request_form : list (string * string)) : gmap string FormValue :=
  fold_right (fun kv d => <[fst kv := FormOne (snd kv)]> d) ∅ request_form.

Definition parse_form (request_form : list (string * string)) : gmap string FormValue :=
  let request_dict := form_to_dict request_form in
  fold_left
    (fun (d : gmap string FormValue) key =>
       if endswith key "[]"
       then <[key := FormMany (form_getlist request_form key)]> d
       else d)
    (List.map fst request_form) request_dict.

(** ** [ImageUpload.cleanup]: lines 45-57 of [image_upload.py] *)

Section Cleanup.

(** The paths [os.remove] is able to delete; on the others it raises. *)
Variable removable : string -> bool.

(** [os.remove(path)] *)
Definition os_remove (d : Disk) (path : string) : result Disk :=
  if removable path then ret (delete path d)
  else raise (OSError "Permission denied").

(** One turn of the loop: the disk and the log (info and warning lines). *)
Definition cleanup_one (st : Disk * list string) (image_path : string)
  : Disk * list string :=
  let '(d, log) := st in
  match d !! image_path with
  | Some _ =>                                (* os.path.exists(image_path) *)
      match os_remove d image_path with
      | inr d' => (d', log ++ ["Deleted uploaded image: " ++ image_path]%string)%list
      | inl e =>
          (d, log ++ ["Failed to delete uploaded image " ++ image_path ++ ": "
                        ++ exn_message e]%string)%list
      end
  | None => (d, log)
  end.

Definition cleanup (d : Disk) (settings : Settings) : Disk * list string :=
  let image_locations := match imageFiles settings with Some l => l | None => [] end in
  match image_locations with
  | [] => (d, [])
  | _ => fold_left cleanup_one image_locations (d, [])
  end.

End Cleanup.

(** ** Inputs for the examples *)

(** An image of two rows of three pixels, decoded at every path. *)
Definition image_3x2 : list (list rgb) :=
  [[Red; (10, 200, 30); White]; [(90, 90, 90); Blue; Yellow]].
Definition open_3x2 (path : string) : result (list (list rgb)) := inr image_3x2.

(** An image of one row of five pixels, decoded at every path. *)
Definition image_5x1 : list (list rgb) := [[Red; Red; Red; Red; Red]].
Definition open_5x1 (path : string) : result (list (list rgb)) := inr image_5x1.

(** A decoder that fails at every path. *)
Definition open_fails (path : string) : result (list (list rgb)) :=
  inl (OSError "cannot identify image file").

(** A decoder and an encoder for uploads: every upload decodes to the
    white photo, an image is encoded as its width and height. *)
Definition photo_open (bytes : list Z) : result Image := ret photo_1600x1200.
Definition size_save (im : Image) (path : string) : result (list Z) :=
  ret [width im; height im].
Definition bad_parse_int (s : string) : result Z :=
  raise (ValueError "invalid literal for int() with base 10").
Definition photo_upload : FileStorage := mkFileStorage "holiday/photo.JPG" [7; 7; 7].
Definition pdf_upload : FileStorage := mkFileStorage "notes.pdf" [37; 80; 68; 70].
Definition script_upload : FileStorage := mkFileStorage "run.sh" [35; 33].

(** A disk with two saved images and a file of another kind. *)
Definition sample_disk : Disk :=
  <["a.png" := [1]]> (<["b.png" := [2]]> (<["keep.txt" := [3]]> ∅)).
Definition two_images : Settings := mkSettings (Some 1) (Some ["a.png"; "b.png"]) None.
Definition good_open (bytes : list Z) : result Image := ret (mkImage 1 1 (fun _ _ => White)).

(** A font loader for the examples: a font is its path and size, and the
    file of the Napoli family is missing. *)
Definition sample_truetype (path : string) (size : Q) : result (string * Q) :=
  if String.eqb path "src/static/fonts/Napoli.ttf"
  then raise (OSError "cannot open resource")
  else ret (path, size).

(** The state before any upload, and the handler of the examples: uploads
    decode to the white photo and are encoded as their size. *)
Definition empty_upload_state : UploadState := mkUploadState ∅ ∅ [].
Definition sample_handle_file :=
  handle_file black_px black_px black_px contain_same scale_exact
              photo_open size_save sample_exif sample_parse_int "src".
Definition sample_handle_request_files :=
  handle_request_files black_px black_px black_px contain_same scale_exact
                       photo_open size_save sample_exif sample_parse_int "src".

(** A kernel that paints white and a display as large as the white photo:
    on it the fitted photo is the photo itself. *)
Definition white_px (im : Image) (size : Z * Z) (x y : Z) : rgb := White.
Definition photo_display : DeviceConfig := mkDeviceConfig "horizontal" (1600, 1200).

(** * Theorems *)

(** ** Sample runs *)

Example pack_2x2 : pack_pixels [[4; 5]; [0; 1]] = inr [69; 1].
Proof. reflexivity. Qed.

Example pack_1x5 : exists e, pack_pixels [[0; 0; 0; 0; 0]] = inl e.
Proof. eexists. reflexivity. Qed.

Example pack_1x3 : pack_pixels [[1; 2; 3]] = inr [18; 50].
Proof. reflexivity. Qed.

Example pack_1x1 : pack_pixels [[3]] = inr [].
Proof. reflexivity. Qed.

Example quantize_red :
  p_pixels (quantize share_trunc PALETTE_IMAGE red_10x10)
  = List.repeat (List.repeat 4 10) 10.
Proof. vm_compute. reflexivity. Qed.

(** ** The bit packer *)

Section PairInduction.

Variable A : Type.
Variable P : list A -> Prop.
Hypothesis P_nil : P [].
Hypothesis P_one : forall x, P [x].
Hypothesis P_two : forall x y l, P l -> P (x :: y :: l).

Lemma pair_ind : forall l, P l.
Proof.
  assert (H : forall l, P l /\ forall x, P (x :: l)).
  { induction l as [|a l [IH1 IH2]]; split; auto. }
  intros l. apply H.
Qed.

End PairInduction.

Lemma nibble_cases (p : Z) :
  0 <= p < 16 ->
  In p [0; 1; 2; 3; 4; 5; 6; 7; 8; 9; 10; 11; 12; 13; 14; 15].
Proof. intros H. simpl. lia. Qed.

Lemma nibble_byte (p0 p1 : Z) :
  0 <= p0 < 16 -> 0 <= p1 < 16 ->
  Numpy.uint8 (Z.shiftl p0 4) = Z.shiftl p0 4 /\
  unpack_byte (Z.lor (Numpy.uint8 (Z.shiftl p0 4)) p1) = [p0; p1].
Proof.
  intros H0 H1.
  apply nibble_cases in H0. apply nibble_cases in H1.
  simpl in H0, H1.
  repeat (destruct H0 as [<- | H0]; [|]); try contradiction;
    repeat (destruct H1 as [<- | H1]; [|]); try contradiction;
    split; reflexivity.
Qed.

Lemma array_uint8_id (bound : Z) (w h : nat) (px : list (list Z)) :
  bound <= 256 -> canvas bound w h px -> Numpy.array_uint8 px = px.
Proof.
  intros Hb [_ Hrows]. unfold Numpy.array_uint8.
  induction Hrows as [|row rows [_ Hrow] _ IH]; simpl; [reflexivity|].
  f_equal; [|exact IH].
  clear IH. induction Hrow as [|p ps Hp _ IH]; simpl; [reflexivity|].
  f_equal; [|exact IH].
  unfold Numpy.uint8. apply Z.mod_small. lia.
Qed.

Lemma canvas_flat_length (bound : Z) (w h : nat) (px : list (list Z)) :
  canvas bound w h px -> length (Numpy.flatten px) = (w * h)%nat.
Proof.
  intros [Hlen Hrows]. subst h. unfold Numpy.flatten.
  induction Hrows as [|row rows [Hw _] _ IH]; simpl; [lia|].
  rewrite List.length_app, IH, Hw. lia.
Qed.

Lemma canvas_flat_bound (bound : Z) (w h : nat) (px : list (list Z)) :
  canvas bound w h px -> Forall (fun p => 0 <= p < bound) (Numpy.flatten px).
Proof.
  intros [_ Hrows]. unfold Numpy.flatten.
  induction Hrows as [|row rows [_ Hrow] _ IH]; simpl; [constructor|].
  apply Forall_app. split; assumption.
Qed.

Lemma slices_even_length (l : list Z) :
  Nat.even (length l) = true ->
  length (Numpy.lshift (Numpy.even_slice l) 4) = length (Numpy.odd_slice l).
Proof.
  induction l as [| x | x y l IH] using pair_ind; intros He.
  - reflexivity.
  - discriminate.
  - change (length (x :: y :: l)) with (S (S (length l))) in He.
    simpl in He. specialize (IH He).
    unfold Numpy.lshift, Numpy.odd_slice in *. simpl.
    f_equal. destruct l as [|z l']; [reflexivity|].
    simpl in *. rewrite IH. reflexivity.
Qed.

Lemma even_slice_cons2 (x y : Z) (l : list Z) :
  Numpy.even_slice (x :: y :: l) = x :: Numpy.even_slice l.
Proof. reflexivity. Qed.

Lemma odd_slice_cons2 (x y : Z) (l : list Z) :
  Numpy.odd_slice (x :: y :: l) = y :: Numpy.odd_slice l.
Proof. destruct l; reflexivity. Qed.

Lemma pack_flat_cons2 (x y : Z) (l : list Z) :
  pack_flat (x :: y :: l) = Z.lor (Numpy.uint8 (Z.shiftl x 4)) y :: pack_flat l.
Proof.
  unfold pack_flat. rewrite even_slice_cons2, odd_slice_cons2. reflexivity.
Qed.

Lemma pack_flat_length (l : list Z) :
  Nat.even (length l) = true -> length (pack_flat l) = Nat.div2 (length l).
Proof.
  induction l as [| x | x y l IH] using pair_ind; intros He.
  - reflexivity.
  - discriminate.
  - rewrite pack_flat_cons2. simpl. f_equal. apply IH. exact He.
Qed.

Lemma unpack_cons (b : Z) (bs : list Z) :
  unpack (b :: bs) = (unpack_byte b ++ unpack bs)%list.
Proof. reflexivity. Qed.

Lemma pack_flat_unpack (l : list Z) :
  Nat.even (length l) = true ->
  Forall (fun p => 0 <= p < 16) l ->
  unpack (pack_flat l) = l.
Proof.
  induction l as [| x | x y l IH] using pair_ind; intros He Hl.
  - reflexivity.
  - discriminate.
  - rewrite pack_flat_cons2.
    apply Forall_cons in Hl as [Hx Hl]. apply Forall_cons in Hl as [Hy Hl].
    destruct (nibble_byte x y Hx Hy) as [_ Hb].
    rewrite unpack_cons, Hb, (IH He Hl). reflexivity.
Qed.

Lemma pack_flat_nth (l : list Z) :
  Nat.even (length l) = true ->
  Forall (fun p => 0 <= p < 16) l ->
  forall i, (i < length (pack_flat l))%nat ->
    List.nth i (pack_flat l) 0 =
    Z.lor (Z.shiftl (List.nth (2 * i) l 0) 4) (List.nth (2 * i + 1) l 0).
Proof.
  induction l as [| x | x y l IH] using pair_ind; intros He Hl i Hi.
  - simpl in Hi. lia.
  - discriminate.
  - rewrite pack_flat_cons2 in *.
    apply Forall_cons in Hl as [Hx Hl]. apply Forall_cons in Hl as [Hy Hl].
    destruct (nibble_byte x y Hx Hy) as [Hs _].
    destruct i as [|i].
    + simpl. rewrite Hs. reflexivity.
    + simpl in Hi.
      replace (2 * S i)%nat with (S (S (2 * i))) by lia.
      replace (S (S (2 * i)) + 1)%nat with (S (S (2 * i + 1))) by lia.
      simpl List.nth. apply IH; [exact He | exact Hl | lia].
Qed.

Lemma pack_pixels_even (w h : nat) (px : list (list Z)) :
  canvas 16 w h px -> Nat.even (w * h) = true ->
  pack_pixels px = inr (pack_flat (Numpy.flatten px)).
Proof.
  intros Hc He.
  unfold pack_pixels. rewrite (array_uint8_id 16 w h px) by (lia || exact Hc).
  unfold Numpy.bitor, Numpy.broadcast.
  rewrite slices_even_length
    by (rewrite (canvas_flat_length _ _ _ _ Hc); exact He).
  rewrite Nat.eqb_refl. reflexivity.
Qed.

(** C1.  The packer walks the canvas row by row and emits, for every pair
    of consecutive pixels [(p0, p1)], the byte [(p0 << 4) | p1]: for every
    index canvas with an even number of pixels the call returns a buffer of
    [(width * height) / 2] bytes, byte [i] holds pixel [2i] in its high
    nibble and pixel [2i + 1] in its low nibble, and reading the nibbles
    back gives the canvas again.  (Entries below 16 are enough; palette
    indices are below 6.) *)
Theorem pack_pixels_roundtrip (w h : nat) (px : list (list Z)) :
  canvas 16 w h px ->
  Nat.even (w * h) = true ->
  exists buf,
    pack_pixels px = inr buf /\
    Z.of_nat (length buf) = Z.of_nat (w * h) / 2 /\
    (forall i, (i < length buf)%nat ->
       List.nth i buf 0 =
       Z.lor (Z.shiftl (List.nth (2 * i) (List.concat px) 0) 4)
             (List.nth (2 * i + 1) (List.concat px) 0)) /\
    unpack buf = List.concat px.
Proof.
  intros Hc He.
  pose proof (canvas_flat_length _ _ _ _ Hc) as Hlen.
  pose proof (canvas_flat_bound _ _ _ _ Hc) as Hb.
  assert (He' : Nat.even (length (Numpy.flatten px)) = true) by (rewrite Hlen; exact He).
  exists (pack_flat (Numpy.flatten px)).
  split; [apply (pack_pixels_even w h); assumption|].
  split.
  { rewrite pack_flat_length by exact He'. rewrite Hlen.
    rewrite Nat.div2_div, Nat2Z.inj_div. reflexivity. }
  split.
  { intros i Hi. apply pack_flat_nth; assumption. }
  apply pack_flat_unpack; assumption.
Qed.

Lemma pack_pixels_roundtrip_witness :
  exists buf,
    pack_pixels [[4; 5]; [0; 1]] = inr buf /\
    Z.of_nat (length buf) = Z.of_nat (2 * 2) / 2 /\
    (forall i, (i < length buf)%nat ->
       List.nth i buf 0 =
       Z.lor (Z.shiftl (List.nth (2 * i) (List.concat [[4; 5]; [0; 1]]) 0) 4)
             (List.nth (2 * i + 1) (List.concat [[4; 5]; [0; 1]]) 0)) /\
    unpack buf = List.concat [[4; 5]; [0; 1]].
Proof.
  apply (pack_pixels_roundtrip 2 2 [[4; 5]; [0; 1]]).
  - split; [reflexivity|].
    repeat constructor; lia.
  - reflexivity.
Defined.

Lemma even_slice_length (l : list Z) :
  length (Numpy.even_slice l) = Nat.div2 (S (length l)).
Proof.
  induction l as [| x | x y l IH] using pair_ind; try reflexivity.
  rewrite even_slice_cons2. simpl length. rewrite IH. reflexivity.
Qed.

Lemma odd_slice_length (l : list Z) :
  length (Numpy.odd_slice l) = Nat.div2 (length l).
Proof.
  induction l as [| x | x y l IH] using pair_ind; try reflexivity.
  rewrite odd_slice_cons2. simpl length. rewrite IH. reflexivity.
Qed.

Lemma array_uint8_flat_length (px : list (list Z)) :
  length (Numpy.flatten (Numpy.array_uint8 px)) = length (Numpy.flatten px).
Proof.
  unfold Numpy.flatten, Numpy.array_uint8.
  induction px as [|row rows IH]; simpl; [reflexivity|].
  rewrite !List.length_app, IH, List.length_map. reflexivity.
Qed.

Lemma broadcast_mismatch (f : Z -> Z -> Z) (a b : list Z) :
  length a <> length b -> (2 <= length a)%nat -> (2 <= length b)%nat ->
  Numpy.broadcast f a b = inl (ValueError "operands could not be broadcast together").
Proof.
  intros Hne Ha Hb. unfold Numpy.broadcast.
  destruct (Nat.eqb_spec (length a) (length b)) as [Heq|_]; [contradiction|].
  destruct a as [|x [|x' a]]; simpl in Ha; try lia.
  destruct b as [|y [|y' b]]; simpl in Hb; try lia.
  reflexivity.
Qed.

Lemma div2_odd_succ (n : nat) :
  Nat.odd n = true -> Nat.div2 (S n) = S (Nat.div2 n).
Proof.
  intros Ho. rewrite !Nat.div2_div.
  apply Nat.odd_spec in Ho as [k ->].
  replace (S (2 * k + 1)) with ((k + 1) * 2)%nat by lia.
  rewrite Nat.div_mul by lia.
  replace (2 * k + 1)%nat with (1 + k * 2)%nat by lia.
  rewrite Nat.div_add by lia. simpl. lia.
Qed.

(** C8, as the specification states it, fails: a canvas of one row of five
    pixels is not padded, the packer raises. *)
Lemma pack_pixels_odd_not_padded :
  canvas 6 5 1 [[0; 0; 0; 0; 0]] /\
  Nat.odd (5 * 1) = true /\
  pack_pixels [[0; 0; 0; 0; 0]]
    = inl (ValueError "operands could not be broadcast together") /\
  ~ padded_pack 5 1 [[0; 0; 0; 0; 0]].
Proof.
  split; [split; [reflexivity | repeat constructor; lia]|].
  split; [reflexivity|].
  split; [reflexivity|].
  intros [buf [H _]]. discriminate H.
Qed.

(** C8, amended.  On a canvas with an odd number of pixels the packer never
    pads: with five pixels or more the two slices have different lengths
    and the bitwise "or" raises; three pixels give two bytes in which both
    the first and the last pixel are paired with the second one; a single
    pixel gives the empty buffer. *)
Theorem pack_pixels_odd (w h : nat) (px : list (list Z)) :
  canvas 256 w h px ->
  Nat.odd (w * h) = true ->
  ((5 <= w * h)%nat ->
     pack_pixels px = inl (ValueError "operands could not be broadcast together")) /\
  (forall p0 p1 p2, List.concat px = [p0; p1; p2] ->
     pack_pixels px = inr [Z.lor (Numpy.uint8 (Z.shiftl p0 4)) p1;
                           Z.lor (Numpy.uint8 (Z.shiftl p2 4)) p1]) /\
  (forall p0, List.concat px = [p0] -> pack_pixels px = inr []).
Proof.
  intros Hc Ho.
  pose proof (canvas_flat_length _ _ _ _ Hc) as Hlen.
  unfold pack_pixels.
  rewrite (array_uint8_id 256 w h px) by (lia || exact Hc).
  split; [|split].
  - intros H5. unfold Numpy.bitor.
    rewrite broadcast_mismatch; [reflexivity | | |].
    + unfold Numpy.lshift. rewrite List.length_map, even_slice_length, odd_slice_length.
      rewrite div2_odd_succ by (rewrite Hlen; exact Ho). lia.
    + unfold Numpy.lshift. rewrite List.length_map, even_slice_length, Hlen.
      rewrite Nat.div2_div. apply (Nat.Div0.div_le_mono 4 (S (w * h)) 2); lia.
    + rewrite odd_slice_length, Hlen.
      rewrite Nat.div2_div. apply (Nat.Div0.div_le_mono 4 (w * h) 2); lia.
  - intros p0 p1 p2 Hflat. unfold Numpy.flatten. rewrite Hflat. reflexivity.
  - intros p0 Hflat. unfold Numpy.flatten. rewrite Hflat. reflexivity.
Qed.

Lemma pack_pixels_odd_witness :
  ((5 <= 7 * 1)%nat ->
     pack_pixels [[1; 2; 3; 4; 5; 0; 1]]
       = inl (ValueError "operands could not be broadcast together")) /\
  (forall p0 p1 p2, List.concat [[1; 2; 3; 4; 5; 0; 1]] = [p0; p1; p2] ->
     pack_pixels [[1; 2; 3; 4; 5; 0; 1]]
       = inr [Z.lor (Numpy.uint8 (Z.shiftl p0 4)) p1;
              Z.lor (Numpy.uint8 (Z.shiftl p2 4)) p1]) /\
  (forall p0, List.concat [[1; 2; 3; 4; 5; 0; 1]] = [p0] ->
     pack_pixels [[1; 2; 3; 4; 5; 0; 1]] = inr []).
Proof.
  apply (pack_pixels_odd 7 1 [[1; 2; 3; 4; 5; 0; 1]]).
  - split; [reflexivity | repeat constructor; lia].
  - reflexivity.
Defined.

(** ** The palette and the quantizer *)

#[local] Arguments nearest : simpl never.
#[local] Arguments color_of : simpl never.
#[local] Arguments dither_pixel : simpl never.
#[local] Arguments triples : simpl never.

Lemma palette_entries :
  triples palette_data = (six_colors ++ List.repeat Black 250)%list.
Proof. vm_compute. reflexivity. Qed.

(** The scan never leaves the first six entries when every later entry is
    black and the best distance so far is at most the distance to black. *)
Lemma nearest_from_below_six (c : rgb) (entries : list rgb) :
  forall i best bestd,
    0 <= i ->
    0 <= best < 6 ->
    bestd <= dist2 c Black ->
    (forall j p, entries !! j = Some p -> 6 <= i + Z.of_nat j -> p = Black) ->
    0 <= nearest_from c entries i best bestd < 6.
Proof.
  induction entries as [|p rest IH]; intros i best bestd Hi Hbest Hd Hblack.
  - exact Hbest.
  - simpl.
    assert (Hrest : forall j q, rest !! j = Some q -> 6 <= i + 1 + Z.of_nat j -> q = Black).
    { intros j q Hj Hge. apply (Hblack (S j) q Hj). lia. }
    destruct (Z.ltb_spec (dist2 c p) bestd) as [Hlt|Hge].
    + apply IH; try lia; [|exact Hrest].
      destruct (Z.lt_ge_cases i 6) as [Hi6|Hi6]; [lia|].
      rewrite (Hblack 0%nat p eq_refl) in Hlt by lia. lia.
    + apply IH; try lia; assumption.
Qed.

Lemma nearest_below_six (c : rgb) :
  0 <= nearest (triples palette_data) c < 6.
Proof.
  rewrite palette_entries. unfold nearest, six_colors.
  remember (List.repeat Black 250) as tail eqn:Htail.
  simpl app.
  apply nearest_from_below_six; try lia.
  intros j p Hj Hge.
  do 5 (destruct j as [|j]; [lia|]).
  simpl in Hj. subst tail. apply list_elem_of_lookup_2 in Hj.
  apply list_elem_of_In, List.repeat_spec in Hj. exact Hj.
Qed.

(** A palette colour is found at its own index, with no error left. *)
Lemma nearest_exact (c : rgb) :
  In c six_colors ->
  color_of palette_data (nearest (triples palette_data) c) = c /\
  rgb_sub c (List.nth (Z.to_nat (nearest (triples palette_data) c))
                      (triples palette_data) Black) = (0, 0, 0).
Proof.
  intros Hc. simpl in Hc.
  repeat (destruct Hc as [<- | Hc]; [split; vm_compute; reflexivity|]).
  contradiction.
Qed.

Section QuantizerFacts.

Variable share : Z -> Z -> Z.

Local Abbreviation pal := (triples palette_data).

(** *** Shape and range of the emitted indices *)

Lemma accumulate_shape (g : list (list rgb)) (x y : Z) (d : rgb) :
  List.map (@length rgb) (accumulate g x y d) = List.map (@length rgb) g.
Proof.
  unfold accumulate. destruct ((0 <=? x) && (0 <=? y)); [|reflexivity].
  generalize (Z.to_nat y) as j. induction g as [|row g IH]; intros [|j]; simpl;
    try reflexivity.
  - rewrite length_alter. reflexivity.
  - f_equal. apply IH.
Qed.

Lemma dither_pixel_shape (g : list (list rgb)) (x y : nat) :
  List.map (@length rgb) (fst (dither_pixel share pal g x y)) = List.map (@length rgb) g.
Proof.
  unfold dither_pixel. cbn [fst]. rewrite !accumulate_shape. reflexivity.
Qed.

Lemma dither_pixel_index (g : list (list rgb)) (x y : nat) :
  0 <= fst (snd (dither_pixel share pal g x y)) < 6.
Proof. unfold dither_pixel. cbn [fst snd]. apply nearest_below_six. Qed.

Lemma dither_row_S (g : list (list rgb)) (y x n : nat) :
  dither_row share pal g y x (S n)
  = let '(g1, o) := dither_pixel share pal g x y in
    let '(g2, os) := dither_row share pal g1 y (S x) n in
    (g2, o :: os).
Proof. reflexivity. Qed.

Lemma dither_rows_S (g : list (list rgb)) (y n : nat) :
  dither_rows share pal g y (S n)
  = let w := match g !! y with Some row => length row | None => O end in
    let '(g1, os) := dither_row share pal g y 0 w in
    os :: dither_rows share pal g1 (S y) n.
Proof. reflexivity. Qed.

Lemma dither_row_facts (n : nat) :
  forall (g : list (list rgb)) (y x : nat),
    List.map (@length rgb) (fst (dither_row share pal g y x n)) = List.map (@length rgb) g /\
    length (snd (dither_row share pal g y x n)) = n /\
    Forall (fun o => 0 <= fst o < 6) (snd (dither_row share pal g y x n)).
Proof.
  induction n as [|n IH]; intros g y x.
  - repeat split; constructor.
  - rewrite dither_row_S.
    pose proof (dither_pixel_shape g x y) as Hs.
    pose proof (dither_pixel_index g x y) as Hi.
    destruct (dither_pixel share pal g x y) as [g1 o]. cbn [fst snd] in Hs, Hi.
    destruct (IH g1 y (S x)) as [Hs' [Hl' Hf']].
    destruct (dither_row share pal g1 y (S x) n) as [g2 os]. cbn [fst snd] in *.
    repeat split.
    + congruence.
    + cbn [length]. congruence.
    + constructor; assumption.
Qed.

Lemma dither_rows_facts (n : nat) :
  forall (g : list (list rgb)) (y : nat),
    (y + n)%nat = length g ->
    List.map (@length (Z * rgb)) (dither_rows share pal g y n)
      = List.skipn y (List.map (@length rgb) g) /\
    Forall (Forall (fun o => 0 <= fst o < 6)) (dither_rows share pal g y n).
Proof.
  induction n as [|n IH]; intros g y Hy.
  - split; [|constructor].
    cbn [dither_rows List.map]. rewrite List.skipn_all2; [reflexivity|].
    rewrite List.length_map. lia.
  - rewrite dither_rows_S.
    assert (Hrow : exists row, g !! y = Some row).
    { apply lookup_lt_is_Some. lia. }
    destruct Hrow as [row Hrow]. rewrite Hrow. cbv zeta.
    destruct (dither_row_facts (length row) g y 0) as [Hs [Hl Hf]].
    destruct (dither_row share pal g y 0 (length row)) as [g1 os]. cbn [fst snd] in *.
    assert (Hlen1 : length g1 = length g).
    { rewrite <- (List.length_map (@length rgb) g1), Hs, List.length_map. reflexivity. }
    destruct (IH g1 (S y)) as [Hs' Hf']; [lia|].
    split; [|constructor; assumption].
    cbn [List.map]. rewrite Hs', Hs, Hl.
    assert (Hnth : List.map (@length rgb) g !! y = Some (length row)).
    { rewrite list_lookup_fmap, Hrow. reflexivity. }
    clear - Hnth. revert y Hnth.
    induction (List.map (@length rgb) g) as [|a l IHl]; intros [|y] Hnth;
      cbn [List.skipn] in *; try discriminate.
    + injection Hnth as ->. reflexivity.
    + apply IHl. exact Hnth.
Qed.

Lemma quantize_shape (img : list (list rgb)) :
  List.map (@length Z) (p_pixels (quantize share PALETTE_IMAGE img))
    = List.map (@length rgb) img.
Proof.
  unfold quantize, dither. cbn [p_pixels].
  destruct (dither_rows_facts (length img) img 0 eq_refl) as [Hs _].
  change (triples (p_palette PALETTE_IMAGE)) with pal.
  rewrite List.map_map.
  rewrite (List.map_ext _ (@length (Z * rgb))) by (intros; apply List.length_map).
  exact Hs.
Qed.

Lemma quantize_range (img : list (list rgb)) :
  Forall (Forall (fun p => 0 <= p < 6)) (p_pixels (quantize share PALETTE_IMAGE img)).
Proof.
  unfold quantize, dither. cbn [p_pixels].
  destruct (dither_rows_facts (length img) img 0 eq_refl) as [_ Hf].
  change (triples (p_palette PALETTE_IMAGE)) with pal.
  induction Hf as [|row rows Hrow _ IH]; cbn [List.map]; constructor; [|exact IH].
  induction Hrow; cbn [List.map]; constructor; assumption.
Qed.

End QuantizerFacts.

Lemma even_slice_Forall (P : Z -> Prop) (l : list Z) :
  Forall P l -> Forall P (Numpy.even_slice l).
Proof.
  induction l as [| x | x y l IH] using pair_ind; intros Hl.
  - constructor.
  - exact Hl.
  - rewrite even_slice_cons2.
    apply Forall_cons in Hl as [Hx Hl]. apply Forall_cons in Hl as [_ Hl].
    constructor; auto.
Qed.

Lemma odd_slice_Forall (P : Z -> Prop) (l : list Z) :
  Forall P l -> Forall P (Numpy.odd_slice l).
Proof.
  intros Hl. unfold Numpy.odd_slice. apply even_slice_Forall.
  destruct Hl; [constructor | assumption].
Qed.

Lemma flatten_Forall (P : Z -> Prop) (px : list (list Z)) :
  Forall (Forall P) px -> Forall P (Numpy.flatten px).
Proof.
  unfold Numpy.flatten. induction 1; simpl; [constructor|].
  apply Forall_app. split; assumption.
Qed.

Lemma array_uint8_small (px : list (list Z)) :
  Forall (Forall (fun p => 0 <= p < 6)) px -> Numpy.array_uint8 px = px.
Proof.
  unfold Numpy.array_uint8.
  induction 1 as [|row rows Hrow _ IH]; simpl; [reflexivity|].
  f_equal; [|exact IH].
  induction Hrow as [|p ps Hp _ IHr]; simpl; [reflexivity|].
  f_equal; [|exact IHr].
  unfold Numpy.uint8. apply Z.mod_small. lia.
Qed.

Lemma index_pair_valid (x y : Z) :
  0 <= x < 6 -> 0 <= y < 6 ->
  nibbles_valid (Z.lor (Numpy.uint8 (Z.shiftl x 4)) y).
Proof.
  intros Hx Hy.
  destruct (nibble_byte x y) as [_ Hb]; [lia | lia |].
  unfold unpack_byte in Hb. injection Hb as Hhi Hlo.
  unfold nibbles_valid. rewrite Hhi, Hlo. lia.
Qed.

Lemma zip_with_valid (a b : list Z) :
  Forall (fun p => 0 <= p < 6) a -> Forall (fun p => 0 <= p < 6) b ->
  Forall nibbles_valid (Numpy.zip_with Z.lor (Numpy.lshift a 4) b).
Proof.
  intros Ha. revert b. induction Ha as [|x a Hx _ IH]; intros b Hb; simpl.
  - constructor.
  - destruct Hb as [|y b Hy Hb]; [constructor|].
    constructor; [apply index_pair_valid; assumption | apply IH; assumption].
Qed.

Lemma broadcast_valid (a b r : list Z) :
  Forall (fun p => 0 <= p < 6) a -> Forall (fun p => 0 <= p < 6) b ->
  Numpy.broadcast Z.lor (Numpy.lshift a 4) b = inr r ->
  Forall nibbles_valid r.
Proof.
  intros Ha Hb. unfold Numpy.broadcast.
  destruct (length (Numpy.lshift a 4) =? length b)%nat.
  { intros [= <-]. apply zip_with_valid; assumption. }
  destruct a as [|x [|x' a]]; simpl.
  - destruct b as [|y [|y' b]]; intros [= <-]; constructor.
  - intros [= <-]. apply Forall_cons in Ha as [Hx _].
    induction Hb as [|y b Hy _ IH]; simpl; constructor;
      [apply index_pair_valid; assumption | exact IH].
  - destruct b as [|y [|y' b]]; intros [= <-].
    apply Forall_cons in Hb as [Hy _].
    change (Forall nibbles_valid
              (List.map (fun z => Z.lor z y) (Numpy.lshift (x :: x' :: a) 4))).
    induction Ha as [|z a0 Hz _ IH]; simpl; constructor;
      [apply index_pair_valid; assumption | exact IH].
Qed.

Lemma pack_pixels_valid (px : list (list Z)) (buf : list Z) :
  Forall (Forall (fun p => 0 <= p < 6)) px ->
  pack_pixels px = inr buf -> Forall nibbles_valid buf.
Proof.
  intros Hpx. unfold pack_pixels. rewrite (array_uint8_small px Hpx).
  unfold Numpy.bitor.
  pose proof (flatten_Forall _ _ Hpx) as Hflat.
  destruct (Numpy.broadcast Z.lor _ _) as [e|r] eqn:Hb; simpl; [discriminate|].
  intros [= <-].
  eapply broadcast_valid; [| |exact Hb].
  - apply even_slice_Forall. exact Hflat.
  - apply odd_slice_Forall. exact Hflat.
Qed.

Lemma shape_canvas (w h : nat) (img : list (list rgb)) (px : list (list Z)) :
  rgb_image w h img ->
  List.map (@length Z) px = List.map (@length rgb) img ->
  Forall (Forall (fun p => 0 <= p < 6)) px ->
  canvas 6 w h px.
Proof.
  intros [Hh Hw] Hshape Hrange. split.
  - rewrite <- Hh, <- (List.length_map (@length Z) px), Hshape, List.length_map.
    reflexivity.
  - clear Hh. revert img Hw Hshape.
    induction Hrange as [|row rows Hrow _ IH]; intros img Hw Hshape; [constructor|].
    destruct img as [|irow img]; [discriminate|].
    cbn [List.map] in Hshape. injection Hshape as Hlen Hshape.
    apply Forall_cons in Hw as [Hw0 Hw].
    constructor; [split; [congruence | exact Hrow]|].
    apply (IH img Hw Hshape).
Qed.

Lemma canvas_weaken (b1 b2 : Z) (w h : nat) (px : list (list Z)) :
  b1 <= b2 -> canvas b1 w h px -> canvas b2 w h px.
Proof.
  intros Hb [Hh Hrows]. split; [exact Hh|].
  eapply Forall_impl; [exact Hrows|].
  intros row [Hw Hrow]. split; [exact Hw|].
  eapply Forall_impl; [exact Hrow|]. simpl. intros p Hp. lia.
Qed.

Section Conversion.

Variable share : Z -> Z -> Z.
Variable open_rgb : string -> result (list (list rgb)).

(** C10.  Whatever the image, the quantizer emits indices 0 to 5 only
    (the 250 padding entries of the palette repeat index 0 and never win
    the nearest-colour scan), so every byte of a packed buffer the
    conversion returns has both nibbles in 0..5; and for a decoded image
    with an even number of pixels the conversion does return such a
    buffer, of half as many bytes as there are pixels. *)
Theorem convert_to_display_format_indices (image_path : string) :
  (forall buf,
     convert_to_display_format share open_rgb image_path = inr buf ->
     Forall nibbles_valid buf) /\
  (forall w h img,
     open_rgb image_path = inr img ->
     rgb_image w h img ->
     Nat.even (w * h) = true ->
     exists buf,
       convert_to_display_format share open_rgb image_path = inr buf /\
       Z.of_nat (length buf) = Z.of_nat (w * h) / 2 /\
       Forall nibbles_valid buf).
Proof.
  assert (Hvalid : forall buf,
             convert_to_display_format share open_rgb image_path = inr buf ->
             Forall nibbles_valid buf).
  { intros buf. unfold convert_to_display_format, resize_and_dither_image.
    destruct (open_rgb image_path) as [e|img]; simpl; [discriminate|].
    apply pack_pixels_valid, quantize_range. }
  split; [exact Hvalid|].
  intros w h img Hopen Himg He.
  assert (Hc : canvas 6 w h (p_pixels (quantize share PALETTE_IMAGE img))).
  { apply (shape_canvas w h img); [exact Himg | apply quantize_shape | apply quantize_range]. }
  pose proof (pack_pixels_even w h _ (canvas_weaken 6 16 _ _ _ ltac:(lia) Hc) He)
    as Hpack.
  set (buf := pack_flat (Numpy.flatten (p_pixels (quantize share PALETTE_IMAGE img)))) in *.
  assert (Hconv : convert_to_display_format share open_rgb image_path = inr buf).
  { unfold convert_to_display_format, resize_and_dither_image.
    rewrite Hopen. simpl. exact Hpack. }
  exists buf. repeat split; [exact Hconv | | apply Hvalid; exact Hconv].
  pose proof (canvas_flat_length _ _ _ _ Hc) as Hlen.
  unfold buf. rewrite pack_flat_length by (rewrite Hlen; exact He).
  rewrite Hlen, Nat.div2_div, Nat2Z.inj_div. reflexivity.
Qed.

End Conversion.

Lemma convert_to_display_format_indices_witness :
  exists buf,
    convert_to_display_format share_trunc open_red current_image_path = inr buf /\
    Z.of_nat (length buf) = Z.of_nat (10 * 10) / 2 /\
    Forall nibbles_valid buf.
Proof.
  destruct (convert_to_display_format_indices share_trunc open_red current_image_path)
    as [_ H].
  apply (H 10%nat 10%nat red_10x10).
  - reflexivity.
  - split; [reflexivity | repeat constructor].
  - reflexivity.
Defined.

Lemma red_palette_valued : palette_valued red_10x10.
Proof.
  unfold palette_valued, red_10x10.
  apply Forall_forall. intros row Hrow%list_elem_of_In%List.repeat_spec. subst row.
  apply Forall_forall. intros c Hc%list_elem_of_In%List.repeat_spec. subst c.
  unfold six_colors, In. auto 6.
Qed.

Section Idempotence.

Variable share : Z -> Z -> Z.
Hypothesis share_zero : forall k, share k 0 = 0.

Local Abbreviation pal := (triples palette_data).

Lemma rgb_add_zero (c : rgb) : rgb_add c (0, 0, 0) = c.
Proof. destruct c as [[r g] b]. simpl. rewrite !Z.add_0_r. reflexivity. Qed.

Lemma rgb_share_zero (k : Z) : rgb_share share k (0, 0, 0) = (0, 0, 0).
Proof. unfold rgb_share. rewrite share_zero. reflexivity. Qed.

Lemma accumulate_zero (g : list (list rgb)) (x y : Z) :
  accumulate g x y (0, 0, 0) = g.
Proof.
  unfold accumulate. destruct ((0 <=? x) && (0 <=? y)); [|reflexivity].
  apply list_alter_id. intros row.
  apply list_alter_id. apply rgb_add_zero.
Qed.

(** On a palette colour the pixel step leaves the working grid alone. *)
Lemma dither_pixel_exact (g : list (list rgb)) (x y : nat) (c : rgb) :
  work_at g x y = c -> In c six_colors ->
  dither_pixel share pal g x y = (g, (nearest pal c, (0, 0, 0))).
Proof.
  intros Hw Hc. unfold dither_pixel. rewrite Hw.
  destruct (nearest_exact c Hc) as [_ He]. rewrite He.
  rewrite !rgb_share_zero, !accumulate_zero. reflexivity.
Qed.

Lemma dither_row_exact (g : list (list rgb)) (y : nat) (row : list rgb) :
  g !! y = Some row ->
  Forall (fun c => In c six_colors) row ->
  forall n x, (x + n)%nat = length row ->
    dither_row share pal g y x n
    = (g, List.map (fun c => (nearest pal c, (0, 0, 0))) (drop x row)).
Proof.
  intros Hrow Hsix. induction n as [|n IH]; intros x Hx.
  - rewrite drop_ge by lia. reflexivity.
  - assert (Hc : exists c, row !! x = Some c) by (apply lookup_lt_is_Some; lia).
    destruct Hc as [c Hc].
    assert (Hin : In c six_colors).
    { rewrite Forall_lookup in Hsix. exact (Hsix x c Hc). }
    rewrite dither_row_S.
    rewrite (dither_pixel_exact g x y c); [| |exact Hin].
    + rewrite IH by lia. rewrite (drop_S row c x Hc). reflexivity.
    + unfold work_at. rewrite Hrow, Hc. reflexivity.
Qed.

Lemma dither_rows_exact (g : list (list rgb)) :
  palette_valued g ->
  forall n y, (y + n)%nat = length g ->
    dither_rows share pal g y n
    = List.map (List.map (fun c => (nearest pal c, (0, 0, 0)))) (drop y g).
Proof.
  intros Hg. induction n as [|n IH]; intros y Hy.
  - rewrite drop_ge by lia. reflexivity.
  - assert (Hrow : exists row, g !! y = Some row) by (apply lookup_lt_is_Some; lia).
    destruct Hrow as [row Hrow].
    assert (Hsix : Forall (fun c => In c six_colors) row).
    { unfold palette_valued in Hg. rewrite Forall_lookup in Hg. exact (Hg y row Hrow). }
    rewrite dither_rows_S, Hrow. cbv zeta.
    rewrite (dither_row_exact g y row Hrow Hsix (length row) 0 eq_refl).
    rewrite IH by lia. rewrite (drop_S g row y Hrow). reflexivity.
Qed.

Lemma dither_exact (img : list (list rgb)) :
  palette_valued img ->
  dither share pal img
  = List.map (List.map (fun c => (nearest pal c, (0, 0, 0)))) img.
Proof.
  intros Himg. unfold dither.
  rewrite (dither_rows_exact img Himg (length img) 0 eq_refl). reflexivity.
Qed.

Lemma quantize_exact (img : list (list rgb)) :
  palette_valued img ->
  p_pixels (quantize share PALETTE_IMAGE img) = List.map (List.map (nearest pal)) img /\
  diffused share PALETTE_IMAGE img = List.map (List.map (fun _ => (0, 0, 0))) img.
Proof.
  intros Himg. unfold quantize, diffused. cbn [p_pixels].
  change (triples (p_palette PALETTE_IMAGE)) with pal.
  rewrite (dither_exact img Himg), !List.map_map.
  split; apply List.map_ext; intros row; rewrite List.map_map; reflexivity.
Qed.

Lemma to_rgb_exact (img : list (list rgb)) :
  palette_valued img ->
  to_rgb (quantize share PALETTE_IMAGE img) = img.
Proof.
  intros Himg. unfold to_rgb.
  destruct (quantize_exact img Himg) as [-> _].
  change (p_palette (quantize share PALETTE_IMAGE img)) with palette_data.
  rewrite List.map_map.
  induction Himg as [|row rows Hrow _ IH]; cbn [List.map]; [reflexivity|].
  f_equal; [|exact IH].
  rewrite List.map_map.
  induction Hrow as [|c cs Hc _ IHr]; cbn [List.map]; [reflexivity|].
  f_equal; [|exact IHr].
  apply (nearest_exact c Hc).
Qed.

Lemma zero_errors (img : list (list rgb)) :
  Forall (Forall (fun e : rgb => e = (0, 0, 0)))
         (List.map (List.map (fun _ : rgb => (0, 0, 0))) img).
Proof.
  induction img as [|row rows IH]; cbn [List.map]; constructor; [|exact IH].
  induction row; cbn [List.map]; constructor; auto.
Qed.

Variable open_rgb : string -> result (list (list rgb)).

(** C4.  An image made of the six palette colours only comes back
    unchanged from the quantizer: every pixel is given the index of its
    own colour and no error is diffused.  In particular the solid red
    10x10 image yields index 4 everywhere, with zero diffused error. *)
Theorem quantize_palette_valued :
  (forall image_path img,
     open_rgb image_path = inr img ->
     palette_valued img ->
     exists q,
       resize_and_dither_image share open_rgb image_path = inr q /\
       to_rgb q = img /\
       Forall (Forall (fun e => e = (0, 0, 0))) (diffused share PALETTE_IMAGE img)) /\
  p_pixels (quantize share PALETTE_IMAGE red_10x10) = List.repeat (List.repeat 4 10) 10 /\
  Forall (Forall (fun e => e = (0, 0, 0))) (diffused share PALETTE_IMAGE red_10x10).
Proof.
  pose proof red_palette_valued as Hred.
  split; [|split].
  - intros image_path img Hopen Himg.
    exists (quantize share PALETTE_IMAGE img).
    split; [unfold resize_and_dither_image; rewrite Hopen; reflexivity|].
    split; [apply to_rgb_exact; exact Himg|].
    destruct (quantize_exact img Himg) as [_ ->]. apply zero_errors.
  - destruct (quantize_exact red_10x10 Hred) as [-> _].
    vm_compute. reflexivity.
  - destruct (quantize_exact red_10x10 Hred) as [_ ->]. apply zero_errors.
Qed.

End Idempotence.

Lemma quantize_palette_valued_witness :
  (forall k, share_trunc k 0 = 0) /\
  exists q,
    resize_and_dither_image share_trunc open_red current_image_path = inr q /\
    to_rgb q = red_10x10.
Proof.
  assert (Hz : forall k, share_trunc k 0 = 0).
  { intros k. unfold share_trunc. rewrite Z.mul_0_r. reflexivity. }
  split; [exact Hz|].
  destruct (quantize_palette_valued share_trunc Hz open_red) as [H _].
  destruct (H current_image_path red_10x10) as [q [Hq [Hrgb _]]].
  - reflexivity.
  - exact red_palette_valued.
  - exists q. split; assumption.
Defined.

(** ** The palette table *)

Lemma six_colors_NoDup : NoDup six_colors.
Proof.
  unfold six_colors, Black, White, Green, Blue, Red, Yellow.
  repeat (constructor; [rewrite ?elem_of_cons, ?elem_of_nil; intuition congruence|]).
  constructor.
Qed.

(** C2.  The palette is the constant table built once by
    [_create_palette_image]: indices 0 to 5 are Black, White, Green, Blue,
    Red and Yellow, six different colours, and the padding up to 256
    entries only repeats black; the palette image holds one pixel per
    index.  Whatever image is quantized, the result carries exactly this
    palette and only indices 0 to 5 of it, whether or not the image uses
    all six colours. *)
Theorem palette_is_fixed :
  p_palette PALETTE_IMAGE = palette_data /\
  p_pixels PALETTE_IMAGE = [[0; 1; 2; 3; 4; 5]] /\
  (color_of palette_data 0 = Black /\ color_of palette_data 1 = White /\
   color_of palette_data 2 = Green /\ color_of palette_data 3 = Blue /\
   color_of palette_data 4 = Red /\ color_of palette_data 5 = Yellow) /\
  NoDup six_colors /\
  triples palette_data = (six_colors ++ List.repeat Black 250)%list /\
  (forall share open_rgb image_path q,
     resize_and_dither_image share open_rgb image_path = inr q ->
     p_palette q = palette_data /\
     Forall (Forall (fun i => 0 <= i < 6)) (p_pixels q)).
Proof.
  split. { reflexivity. }
  split. { reflexivity. }
  split. { repeat split; reflexivity. }
  split. { exact six_colors_NoDup. }
  split. { exact palette_entries. }
  intros share open_rgb image_path q. unfold resize_and_dither_image.
  destruct (open_rgb image_path) as [e|img]; cbn [bind ret]; [discriminate|].
  intros [= <-]. split; [reflexivity | apply quantize_range].
Qed.

Lemma palette_is_fixed_witness :
  exists q,
    resize_and_dither_image share_trunc open_red current_image_path = inr q /\
    p_palette q = palette_data /\
    Forall (Forall (fun i => 0 <= i < 6)) (p_pixels q).
Proof.
  exists (quantize share_trunc PALETTE_IMAGE red_10x10).
  split; [reflexivity|].
  destruct palette_is_fixed as (_ & _ & _ & _ & _ & H).
  apply (H share_trunc open_red current_image_path). reflexivity.
Defined.

(** ** The geometry fitter *)

Lemma scale_exact_accurate : scale_accurate scale_exact.
Proof.
  intros d b Hd Hb. unfold scale_exact.
  rewrite Z.quot_div_nonneg by nia.
  pose proof (Z.mul_div_le (d * (100 - b)) 100 ltac:(lia)).
  pose proof (Z.mul_succ_div_gt (d * (100 - b)) 100 ltac:(lia)).
  lia.
Qed.

Section GeometryFacts.

Variable fit_px : Image -> Z * Z -> Z -> Z -> rgb.
Variable resize_px : Image -> Z * Z -> Z -> Z -> rgb.
Variable blur_px : Image -> Z * Z -> Z -> Z -> rgb.
Variable contain : Image -> Z * Z -> Image.
Variable scale_dim : Z -> Z -> Z.

Local Abbreviation fitter := (_resize_and_rotate_image fit_px resize_px blur_px contain scale_dim).
Local Abbreviation fit := (ImageOps_fit fit_px).
Local Abbreviation pad := (pad_image_blur blur_px contain).

Lemma ImageOps_fit_size (im : Image) (w h : Z) :
  1 <= w -> 1 <= h ->
  fit im (w, h) = inr (mkImage w h (fit_px im (w, h))).
Proof.
  intros Hw Hh. unfold ImageOps_fit. cbn [fst snd].
  destruct (Z.ltb_spec w 1); [lia|]. destruct (Z.ltb_spec h 1); [lia|]. reflexivity.
Qed.

Lemma pad_image_blur_size (im : Image) (size : Z * Z) :
  width (pad im size) = fst size /\ height (pad im size) = snd size.
Proof. unfold pad_image_blur, paste. split; reflexivity. Qed.

(** The fit stage (the call with no border) always yields the display size. *)
Lemma fit_stage_size (im : Image) (cfg : DeviceConfig) (w h : Z) :
  resolution cfg = (w, h) -> 1 <= w -> 1 <= h ->
  exists fitted,
    fitter im cfg 0 = inr fitted /\ width fitted = w /\ height fitted = h.
Proof.
  intros Hres Hw Hh. unfold _resize_and_rotate_image. rewrite Hres. cbn [fst snd].
  destruct (String.eqb (orientation cfg) "vertical").
  - destruct (height im <? width im).
    + eexists. split; [reflexivity|]. split; reflexivity.
    + rewrite ImageOps_fit_size by assumption.
      eexists. split; [reflexivity|]. split; reflexivity.
  - rewrite ImageOps_fit_size by assumption.
    eexists. split; [reflexivity|]. split; reflexivity.
Qed.

(** The call with a border is the border step applied to the fit stage. *)
Lemma border_stage (im : Image) (cfg : DeviceConfig) (b : Z) (fitted : Image) :
  fitter im cfg 0 = inr fitted -> 0 < b ->
  fitter im cfg b =
  (do shrunk <- resize resize_px fitted
                  (scale_dim (width fitted) b, scale_dim (height fitted) b);
   ret (paste (Image_new (width fitted, height fitted) White) shrunk
              ((width fitted - scale_dim (width fitted) b) / 2,
               (height fitted - scale_dim (height fitted) b) / 2))).
Proof.
  intros Hfit Hb. unfold _resize_and_rotate_image in *.
  destruct (if String.eqb (orientation cfg) "vertical" then _ else _) as [e|im1];
    cbn [bind] in *; [discriminate|].
  change (0 <? 0) with false in Hfit. cbv iota in Hfit. injection Hfit as ->.
  destruct (Z.ltb_spec 0 b); [|lia]. reflexivity.
Qed.

Lemma resize_ok (im : Image) (w h : Z) :
  1 <= w -> 1 <= h ->
  resize resize_px im (w, h) = inr (mkImage w h (resize_px im (w, h))).
Proof.
  intros Hw Hh. unfold resize. cbn [fst snd].
  destruct (Z.ltb_spec w 1); [lia|]. destruct (Z.ltb_spec h 1); [lia|]. reflexivity.
Qed.

Lemma resize_refused (im : Image) (w h : Z) :
  w < 1 \/ h < 1 ->
  resize resize_px im (w, h) = inl (ValueError "height and width must be > 0").
Proof.
  intros Hwh. unfold resize. cbn [fst snd].
  destruct (Z.ltb_spec w 1); [reflexivity|].
  destruct (Z.ltb_spec h 1); [reflexivity|]. lia.
Qed.

Lemma fitter_with_border (im : Image) (cfg : DeviceConfig) (w h b : Z) :
  resolution cfg = (w, h) -> 1 <= w -> 1 <= h -> 0 < b ->
  1 <= scale_dim w b -> 1 <= scale_dim h b ->
  exists out, fitter im cfg b = inr out /\ width out = w /\ height out = h.
Proof.
  intros Hres Hw Hh Hb Hsw Hsh.
  destruct (fit_stage_size im cfg w h Hres Hw Hh) as [fitted [Hfit [Hfw Hfh]]].
  rewrite (border_stage im cfg b fitted Hfit Hb), Hfw, Hfh.
  rewrite resize_ok by assumption.
  eexists. split; [reflexivity|]. split; reflexivity.
Qed.


(** The branches of the fit stage, for any kernels. *)
Lemma fit_stage_cases (im : Image) (cfg : DeviceConfig) (w h : Z) :
  resolution cfg = (w, h) -> 1 <= w -> 1 <= h ->
  (orientation cfg = "vertical" -> height im < width im ->
   fitter im cfg 0 = inr (rotate90_expand (pad im (h, w))) /\
   width (pad im (h, w)) = h /\ height (pad im (h, w)) = w /\
   (forall x y,
      inside ((h - width (contain im (h, w))) / 2) ((w - height (contain im (h, w))) / 2)
             (width (contain im (h, w))) (height (contain im (h, w))) x y = false ->
      pixel (pad im (h, w)) x y = blur_px im (h, w) x y)) /\
  (orientation cfg = "vertical" -> width im <= height im ->
   exists fitted,
     fit im (h, w) = inr fitted /\ width fitted = h /\ height fitted = w /\
     fitter im cfg 0 = inr (rotate90_expand fitted)) /\
  (orientation cfg <> "vertical" ->
   exists fitted,
     fit im (w, h) = inr fitted /\ width fitted = w /\ height fitted = h /\
     fitter im cfg 0 = inr fitted) /\
  (forall f,
     width (rotate90_expand f) = height f /\ height (rotate90_expand f) = width f /\
     forall x y, pixel (rotate90_expand f) x y = pixel f (width f - 1 - y) x).
Proof.
  intros Hres Hw Hh.
  split; [|split; [|split]].
  - intros Hv Hland.
    split.
    { unfold _resize_and_rotate_image. rewrite Hres, Hv. cbn [fst snd].
      rewrite String.eqb_refl.
      destruct (Z.ltb_spec (height im) (width im)); [reflexivity | lia]. }
    split; [reflexivity|]. split; [reflexivity|].
    intros x y Hout. unfold pad_image_blur, paste. cbn [fst snd pixel].
    rewrite Hout. reflexivity.
  - intros Hv Hport.
    exists (mkImage h w (fit_px im (h, w))).
    split; [apply ImageOps_fit_size; assumption|].
    split; [reflexivity|]. split; [reflexivity|].
    unfold _resize_and_rotate_image. rewrite Hres, Hv. cbn [fst snd].
    rewrite String.eqb_refl.
    destruct (Z.ltb_spec (height im) (width im)); [lia|].
    rewrite ImageOps_fit_size by assumption. reflexivity.
  - intros Hh0.
    exists (mkImage w h (fit_px im (w, h))).
    split; [apply ImageOps_fit_size; assumption|].
    split; [reflexivity|]. split; [reflexivity|].
    unfold _resize_and_rotate_image. rewrite Hres.
    apply String.eqb_neq in Hh0. rewrite Hh0.
    rewrite ImageOps_fit_size by assumption. reflexivity.
  - intros f. repeat split; reflexivity.
Qed.

(** The border step for any rounding of the product that is within one
    pixel below the exact value at the two fitted dimensions. *)
Lemma border_step (im : Image) (cfg : DeviceConfig) (b : Z) (fitted : Image) :
  fitter im cfg 0 = inr fitted ->
  0 < b < 100 ->
  0 <= width fitted -> 0 <= height fitted ->
  width fitted * (100 - b) - 100 <= 100 * scale_dim (width fitted) b
    <= width fitted * (100 - b) ->
  height fitted * (100 - b) - 100 <= 100 * scale_dim (height fitted) b
    <= height fitted * (100 - b) ->
  1 <= scale_dim (width fitted) b -> 1 <= scale_dim (height fitted) b ->
  exists out,
    fitter im cfg b = inr out /\
    width out = width fitted /\ height out = height fitted /\
    (let left := (width fitted - scale_dim (width fitted) b) / 2 in
     let right := width fitted - (left + scale_dim (width fitted) b) in
     0 <= left /\ 0 <= right - left <= 1) /\
    (let top := (height fitted - scale_dim (height fitted) b) / 2 in
     let bottom := height fitted - (top + scale_dim (height fitted) b) in
     0 <= top /\ 0 <= bottom - top <= 1) /\
    (forall x y,
       inside ((width fitted - scale_dim (width fitted) b) / 2)
              ((height fitted - scale_dim (height fitted) b) / 2)
              (scale_dim (width fitted) b) (scale_dim (height fitted) b) x y = false ->
       pixel out x y = White) /\
    (forall x y,
       inside ((width fitted - scale_dim (width fitted) b) / 2)
              ((height fitted - scale_dim (height fitted) b) / 2)
              (scale_dim (width fitted) b) (scale_dim (height fitted) b) x y = true ->
       pixel out x y =
       resize_px fitted (scale_dim (width fitted) b, scale_dim (height fitted) b)
                 (x - (width fitted - scale_dim (width fitted) b) / 2)
                 (y - (height fitted - scale_dim (height fitted) b) / 2)).
Proof.
  intros Hfit Hb HW HH Haw Hah Hnw Hnh.
  set (W := width fitted) in *. set (H := height fitted) in *.
  set (nw := scale_dim W b) in *. set (nh := scale_dim H b) in *.
  rewrite (border_stage im cfg b fitted Hfit) by lia.
  fold W H nw nh. rewrite resize_ok by assumption.
  eexists. split; [reflexivity|].
  split; [reflexivity|]. split; [reflexivity|].
  assert (Hdiv : forall d n, n <= d -> 0 <= (d - n) / 2 /\ 0 <= d - ((d - n) / 2 + n) - (d - n) / 2 <= 1).
  { intros d n Hle.
    pose proof (Z.div_mod (d - n) 2 ltac:(lia)).
    pose proof (Z.mod_pos_bound (d - n) 2 ltac:(lia)).
    split; [apply Z.div_pos; lia | lia]. }
  split; [apply Hdiv; nia|]. split; [apply Hdiv; nia|].
  split.
  - intros x y Hout. unfold paste. cbn [pixel width height].
    rewrite Hout. reflexivity.
  - intros x y Hin. unfold paste. cbn [pixel width height].
    rewrite Hin. reflexivity.
Qed.

(** The border step refuses a shrunk size below one pixel. *)
Lemma border_step_refused (im : Image) (cfg : DeviceConfig) (b : Z) (fitted : Image) :
  fitter im cfg 0 = inr fitted ->
  0 < b ->
  scale_dim (width fitted) b < 1 \/ scale_dim (height fitted) b < 1 ->
  fitter im cfg b = inl (ValueError "height and width must be > 0").
Proof.
  intros Hfit Hb Hsmall.
  rewrite (border_stage im cfg b fitted Hfit Hb).
  rewrite resize_refused by exact Hsmall. reflexivity.
Qed.

End GeometryFacts.



(** The same run with the border arithmetic of the code in double
    precision: [int(128 * (1 - 99/100)) = 1] and [int(80 * (1 - 99/100)) = 0]. *)
Example fitter_refuses_in_double_precision :
  shrink_dim 128 99 = 1 /\ shrink_dim 80 99 = 0 /\
  _resize_and_rotate_image black_px black_px black_px contain_same shrink_dim
                           photo_1600x1200 small_panel 99
    = inl (ValueError "height and width must be > 0").
Proof. repeat split; vm_compute; reflexivity. Qed.

(** ** The padding of a landscape source *)

Lemma scaled_index (x n d : Z) :
  0 <= x < n -> 1 <= d -> 0 <= x * d / n < d.
Proof.
  intros Hx Hd. split.
  - apply Z.div_pos; nia.
  - apply Z.div_lt_upper_bound; nia.
Qed.

Lemma spec_contain_size (im : Image) (bw bh : Z) :
  1 <= bw -> 1 <= bh -> 1 <= width im -> 1 <= height im ->
  (width (spec_contain im (bw, bh)) = bw /\
   height (spec_contain im (bw, bh)) = Z.max 1 (height im * bw / width im) /\
   height (spec_contain im (bw, bh)) <= bh) \/
  (height (spec_contain im (bw, bh)) = bh /\
   width (spec_contain im (bw, bh)) = Z.max 1 (width im * bh / height im) /\
   width (spec_contain im (bw, bh)) <= bw).
Proof.
  intros Hbw Hbh HW HH. unfold spec_contain.
  destruct (Z.leb_spec (height im * bw) (width im * bh)) as [Hle | Hgt]; cbn [width height].
  - left. split; [reflexivity|]. split; [reflexivity|].
    assert (height im * bw / width im <= bh) by (apply Z.div_le_upper_bound; nia).
    lia.
  - right. split; [reflexivity|]. split; [reflexivity|].
    assert (width im * bh / height im <= bw) by (apply Z.div_le_upper_bound; nia).
    lia.
Qed.

Lemma spec_contain_pixel (im : Image) (bw bh x y : Z) :
  1 <= width im -> 1 <= height im ->
  0 <= x < width (spec_contain im (bw, bh)) ->
  0 <= y < height (spec_contain im (bw, bh)) ->
  exists sx sy,
    0 <= sx < width im /\ 0 <= sy < height im /\
    pixel (spec_contain im (bw, bh)) x y = pixel im sx sy.
Proof.
  unfold spec_contain.
  destruct (height im * bw <=? width im * bh); cbn [width height pixel];
    intros HW HH Hx Hy; eexists; eexists;
    (split; [|split; [|reflexivity]]); apply scaled_index; assumption.
Qed.

Lemma spec_cover_pixel (im : Image) (bw bh x y : Z) :
  1 <= width im -> 1 <= height im ->
  0 <= x < bw -> 0 <= y < bh ->
  exists sx sy,
    0 <= sx < width im /\ 0 <= sy < height im /\
    pixel (spec_cover im (bw, bh)) x y = pixel im sx sy.
Proof.
  intros HW HH Hx Hy. unfold spec_cover. cbn [pixel].
  assert (Hcrop : forall full other n m u,
            1 <= full -> 1 <= other -> 0 <= u < n -> 1 <= m ->
            n * other <= full * m ->
            0 <= (full - n * other / m) / 2 + u * (n * other / m) / n < full).
  { intros full other n m u Hf Ho Hu Hm Hle.
    set (c := n * other / m).
    assert (Hc0 : 0 <= c) by (apply Z.div_pos; nia).
    assert (Hc1 : c <= full) by (apply Z.div_le_upper_bound; nia).
    pose proof (Z.mul_div_le (full - c) 2 ltac:(lia)) as Hhalf.
    assert (Hh0 : 0 <= (full - c) / 2) by (apply Z.div_pos; lia).
    assert (Hq0 : 0 <= u * c / n) by (apply Z.div_pos; nia).
    destruct (Z.eq_dec c 0) as [Hz | Hnz].
    - rewrite Hz in *. rewrite Z.mul_0_r, Z.div_0_l by lia. lia.
    - assert (u * c / n < c) by (apply Z.div_lt_upper_bound; nia). lia. }
  destruct (Z.leb_spec (height im * bw) (width im * bh)) as [Hle | Hgt].
  - eexists; eexists. split; [|split; [|reflexivity]].
    + apply Hcrop; (assumption || lia).
    + apply scaled_index; assumption.
  - eexists; eexists. split; [|split; [|reflexivity]].
    + apply scaled_index; assumption.
    + apply Hcrop; (assumption || lia).
Qed.

Lemma box_samples_Forall (P : rgb -> Prop) (r : nat) (im : Image) (x y : Z) :
  1 <= width im -> 1 <= height im ->
  (forall u v, 0 <= u < width im -> 0 <= v < height im -> P (pixel im u v)) ->
  Forall P (box_samples r im x y).
Proof.
  intros HW HH HP. apply List.Forall_forall. intros c Hin.
  unfold box_samples in Hin.
  apply List.in_flat_map in Hin. destruct Hin as [dy [_ Hin]].
  apply List.in_map_iff in Hin. destruct Hin as [dx [<- _]].
  apply HP; unfold clamp; lia.
Qed.

Lemma flat_map_const_length {A B : Type} (f : A -> list B) (l : list A) (m : nat) :
  (forall a, length (f a) = m) -> length (flat_map f l) = (length l * m)%nat.
Proof.
  intros Hf. induction l as [|a l IH]; [reflexivity|].
  cbn [flat_map length]. rewrite List.length_app, Hf, IH. lia.
Qed.

Lemma window_length (r : nat) : length (window r) = (2 * r + 1)%nat.
Proof. unfold window. rewrite List.length_map, List.length_seq. reflexivity. Qed.

Lemma box_samples_length (r : nat) (im : Image) (x y : Z) :
  length (box_samples r im x y) = ((2 * r + 1) * (2 * r + 1))%nat.
Proof.
  unfold box_samples.
  rewrite (flat_map_const_length _ _ (2 * r + 1)%nat).
  - rewrite window_length. reflexivity.
  - intros dy. rewrite List.length_map. apply window_length.
Qed.

Lemma rgb_sum_const (c : rgb) (l : list rgb) :
  Forall (eq c) l ->
  fold_right rgb_add (0, 0, 0) l
  = (Z.of_nat (length l) * fst (fst c), Z.of_nat (length l) * snd (fst c),
     Z.of_nat (length l) * snd c).
Proof.
  destruct c as [[r g] b]. cbn [fst snd].
  induction 1 as [|d l Hd _ IH]; [reflexivity|].
  subst d. cbn [fold_right length]. rewrite IH. unfold rgb_add.
  f_equal; [f_equal|]; lia.
Qed.

Lemma rgb_mean_const (c : rgb) (l : list rgb) :
  l <> [] -> Forall (eq c) l -> rgb_mean l = c.
Proof.
  intros Hne Hall. unfold rgb_mean. rewrite (rgb_sum_const c l Hall).
  destruct c as [[r g] b]. cbn [fst snd].
  assert (Hn : Z.of_nat (length l) <> 0) by (destruct l; [congruence | cbn [length]; lia]).
  rewrite !(Z.mul_comm (Z.of_nat (length l))), !Z.div_mul by exact Hn.
  reflexivity.
Qed.

Section PaddingFacts.

Variable fit_px : Image -> Z * Z -> Z -> Z -> rgb.
Variable resize_px : Image -> Z * Z -> Z -> Z -> rgb.
Variable scale_dim : Z -> Z -> Z.

(** The radius of the blur. *)
Variable r : nat.

Local Abbreviation fitter :=
  (_resize_and_rotate_image fit_px resize_px (spec_blur_px r) spec_contain scale_dim).
Local Abbreviation pad := (pad_image_blur (spec_blur_px r) spec_contain).
Local Abbreviation in_source im :=
  (fun c : rgb =>
     exists sx sy, 0 <= sx < width im /\ 0 <= sy < height im /\ c = pixel im sx sy).


End PaddingFacts.


(** ** The border in double precision *)

(** The check, run on every dimension from 0 to 2048 and every border
    percent from 1 to 99. *)
Lemma within_one_upto_2048 :
  forallb (fun d => forallb (fun b => within_one d b) (range_Z 1 99)) (range_Z 0 2049)
  = true.
Proof. vm_compute. reflexivity. Qed.

Lemma range_Z_In (n : nat) (start z : Z) :
  start <= z < start + Z.of_nat n -> In z (range_Z start n).
Proof.
  revert start. induction n as [|n IH]; intros start Hz; [lia|].
  cbn [range_Z]. destruct (Z.eq_dec start z) as [-> | Hne].
  - left. reflexivity.
  - right. apply IH. lia.
Qed.

Lemma forallb_range (f : Z -> bool) (start : Z) (n : nat) (z : Z) :
  forallb f (range_Z start n) = true ->
  start <= z < start + Z.of_nat n -> f z = true.
Proof.
  intros H Hz. rewrite forallb_forall in H. apply H. apply range_Z_In. exact Hz.
Qed.

Lemma within_one_sound (d b : Z) :
  within_one d b = true ->
  d * (100 - b) - 100 <= 100 * shrink_dim d b <= d * (100 - b).
Proof.
  unfold within_one. intros H. apply andb_true_iff in H. destruct H as [H1 H2].
  apply Z.leb_le in H1. apply Z.leb_le in H2. lia.
Qed.

Lemma within_one_checked (d b : Z) :
  0 <= d <= 2048 -> 0 < b < 100 -> within_one d b = true.
Proof.
  intros Hd Hb.
  pose proof (forallb_range _ 0 2049 d within_one_upto_2048 ltac:(lia)) as H.
  cbv beta in H. exact (forallb_range _ 1 99 b H ltac:(lia)).
Qed.

(** On every dimension up to 2048 pixels and every border percent from 1
    to 99 the truncated floating-point product is the exact product
    [d * (100 - b) / 100] rounded down, or one pixel less. *)
Lemma shrink_dim_accurate (d b : Z) :
  0 <= d <= 2048 -> 0 < b < 100 ->
  d * (100 - b) - 100 <= 100 * shrink_dim d b <= d * (100 - b).
Proof.
  intros Hd Hb. apply within_one_sound. apply within_one_checked; assumption.
Qed.

Section BorderFacts.

Variable fit_px : Image -> Z * Z -> Z -> Z -> rgb.
Variable resize_px : Image -> Z * Z -> Z -> Z -> rgb.
Variable blur_px : Image -> Z * Z -> Z -> Z -> rgb.
Variable contain : Image -> Z * Z -> Image.

Local Abbreviation fitter :=
  (_resize_and_rotate_image fit_px resize_px blur_px contain shrink_dim).


End BorderFacts.



(** ** The conditional request *)

Lemma py_int_truncates (q : Q) :
  (0 <= q)%Q -> (inject_Z (py_int q) <= q)%Q /\ (q < inject_Z (py_int q + 1))%Q.
Proof.
  destruct q as [n d]. unfold Qle, Qlt, py_int, inject_Z. cbn [Qnum Qden].
  intros Hq. rewrite Z.quot_div_nonneg by lia.
  pose proof (Z.mul_div_le n (Zpos d) ltac:(lia)).
  pose proof (Z.mul_succ_div_gt n (Zpos d) ltac:(lia)).
  lia.
Qed.

Section ServerFacts.

Variable share : Z -> Z -> Z.
Variable open_rgb : string -> result (list (list rgb)).
Variable path_exists : string -> bool.
Variable getmtime : string -> Q.
Variable strptime : string -> result Z.
Variable utc_offset : Z -> Z.
Variable timestamp_raises : Z -> option exn.
Variable send_file : Request -> string -> string -> result Response.

Local Abbreviation handler :=
  (get_current_image share open_rgb path_exists getmtime strptime utc_offset
     timestamp_raises send_file).
Local Abbreviation file_mtime := (py_int (getmtime current_image_path)).
Local Abbreviation gate header :=
  (not_modified strptime utc_offset timestamp_raises file_mtime header).
Local Abbreviation serve := (serve_image share open_rgb send_file file_mtime).

Lemma handler_unfolded (request : Request) (fresh : bool) :
  path_exists current_image_path = true ->
  gate (if_modified_since request) = inr fresh ->
  handler request =
  if fresh then inr (mkResponse 304 EmptyBody "text/html" None None None)
  else serve request.
Proof.
  intros Hex Hnm. unfold get_current_image. rewrite Hex, Hnm.
  cbn [negb bind ret]. destruct fresh; reflexivity.
Qed.

(** What lines 119-130 compare: the file time with the fields of the
    header read as a wall-clock time of the server's zone. *)
Lemma gate_reads_local_time (h : string) (c : Z) :
  h <> "" ->
  strptime h = inr c ->
  timestamp_raises c = None ->
  gate (Some h) = inr (file_mtime <=? c - utc_offset c).
Proof.
  intros Hne Hparse Hrange. apply String.eqb_neq in Hne.
  unfold not_modified, timestamp. rewrite Hne, Hparse. cbn [bind].
  rewrite Hrange. cbn [ret].
  destruct (file_mtime <=? c - utc_offset c); reflexivity.
Qed.

(** The gate as the code has it.  The file time is truncated to whole
    seconds; a header whose fields, read in the server's zone, give a time
    not before the file time is answered 304 with an empty body; a header
    that gives an earlier time, or that the parser refuses with a
    ValueError, lets the request through to lines 132-148.  On a server
    whose zone is UTC the time compared is the time the header asserts. *)
Lemma freshness_gate (request : Request) (h : string) :
  path_exists current_image_path = true ->
  if_modified_since request = Some h ->
  h <> "" ->
  (forall c, strptime h = inr c -> timestamp_raises c = None ->
     file_mtime <= c - utc_offset c ->
     handler request = inr (mkResponse 304 EmptyBody "text/html" None None None)) /\
  (forall c, strptime h = inr c -> timestamp_raises c = None ->
     c - utc_offset c < file_mtime ->
     handler request = serve request) /\
  (forall msg, strptime h = inl (ValueError msg) -> handler request = serve request) /\
  (forall c msg, strptime h = inr c -> timestamp_raises c = Some (ValueError msg) ->
     handler request = serve request) /\
  (forall packed,
     (format_arg request = None \/ format_arg request = Some "raw"
      \/ format_arg request = Some "spectra6") ->
     convert_to_display_format share open_rgb current_image_path = inr packed ->
     serve request
     = inr (mkResponse 200 (BytesBody packed) "application/octet-stream"
                       (Some file_mtime) (Some "no-cache")
                       (Some (Z.of_nat (length packed))))) /\
  ((0 <= getmtime current_image_path)%Q ->
     (inject_Z file_mtime <= getmtime current_image_path)%Q /\
     (getmtime current_image_path < inject_Z (file_mtime + 1))%Q).
Proof.
  intros Hex Hhdr Hne.
  split; [|split; [|split; [|split; [|split]]]].
  - intros c Hparse Hrange Hle.
    rewrite (handler_unfolded request true Hex); [reflexivity|].
    rewrite Hhdr, (gate_reads_local_time h c Hne Hparse Hrange).
    destruct (Z.leb_spec file_mtime (c - utc_offset c)); [reflexivity | lia].
  - intros c Hparse Hrange Hlt.
    rewrite (handler_unfolded request false Hex); [reflexivity|].
    rewrite Hhdr, (gate_reads_local_time h c Hne Hparse Hrange).
    destruct (Z.leb_spec file_mtime (c - utc_offset c)); [lia | reflexivity].
  - intros msg Hparse. apply String.eqb_neq in Hne.
    rewrite (handler_unfolded request false Hex); [reflexivity|].
    rewrite Hhdr. unfold not_modified. rewrite Hne, Hparse. reflexivity.
  - intros c msg Hparse Hrange. apply String.eqb_neq in Hne.
    rewrite (handler_unfolded request false Hex); [reflexivity|].
    rewrite Hhdr. unfold not_modified, timestamp. rewrite Hne, Hparse. cbn [bind].
    rewrite Hrange. reflexivity.
  - intros packed Hfmt Hconv. unfold serve_image.
    destruct Hfmt as [-> | [-> | ->]]; cbn [lower]; rewrite Hconv; reflexivity.
  - apply py_int_truncates.
Qed.

End ServerFacts.

Lemma freshness_gate_witness :
  get_current_image share_trunc open_red sample_exists sample_mtime sample_strptime
    zone_utc in_range sample_send_file
    (mkRequest (Some "Wed, 15 Nov 2023 00:00:00 GMT") None)
  = inr (mkResponse 304 EmptyBody "text/html" None None None).
Proof.
  destruct (freshness_gate share_trunc open_red sample_exists sample_mtime sample_strptime
              zone_utc in_range sample_send_file
              (mkRequest (Some "Wed, 15 Nov 2023 00:00:00 GMT") None)
              "Wed, 15 Nov 2023 00:00:00 GMT")
    as [H _].
  - reflexivity.
  - reflexivity.
  - discriminate.
  - apply (H 1700006400); [reflexivity | reflexivity | vm_compute; discriminate].
Defined.

(** C5 fails on a server whose zone is not UTC, in both directions.  The
    header "Wed, 15 Nov 2023 00:00:00 GMT" asserts the time 1700006400.
    In New York a file modified an hour later, at 1700010000, is answered
    304: the client keeps the old image.  In Tokyo a file modified before
    that time, at 1700000000, is converted and sent again. *)
Lemma freshness_gate_off_utc :
  sample_strptime "Wed, 15 Nov 2023 00:00:00 GMT" = inr 1700006400 /\
  py_int (newer_mtime current_image_path) = 1700010000 /\
  get_current_image share_trunc open_red sample_exists newer_mtime sample_strptime
    zone_new_york in_range sample_send_file
    (mkRequest (Some "Wed, 15 Nov 2023 00:00:00 GMT") None)
  = inr (mkResponse 304 EmptyBody "text/html" None None None) /\
  py_int (sample_mtime current_image_path) = 1700000000 /\
  exists packed,
    get_current_image share_trunc open_red sample_exists sample_mtime sample_strptime
      zone_tokyo in_range sample_send_file
      (mkRequest (Some "Wed, 15 Nov 2023 00:00:00 GMT") None)
    = inr (mkResponse 200 (BytesBody packed) "application/octet-stream"
                      (Some 1700000000) (Some "no-cache") (Some 50)).
Proof.
  split; [reflexivity|]. split; [reflexivity|]. split; [vm_compute; reflexivity|].
  split; [reflexivity|]. eexists. vm_compute. reflexivity.
Qed.

(** ** Unreadable images *)

(** C9, as the specification states it, fails in the upload handler: bytes
    the decoder rejects do not make it raise.  The failure is logged as a
    warning, the bytes are saved as they came and their path is returned
    like that of any other upload. *)
Lemma upload_recovers_read_error :
  corrupt_open (stream corrupt_upload) = inl (OSError "cannot identify image file") /\
  file_location_map corrupt_upload_state !! "imageFile" = Some (OnePath saved_photo) /\
  disk corrupt_upload_state !! saved_photo = Some [1; 2; 3] /\
  warnings corrupt_upload_state
    = ["Image processing error for photo.png: cannot identify image file"].
Proof.
  split; [reflexivity|].
  split; [vm_compute; reflexivity|].
  split; [vm_compute; reflexivity|].
  vm_compute. reflexivity.
Qed.

Lemma image_extension_allowed (ext : string) :
  ext ∈ image_extensions -> ext ∈ allowed_file_extensions /\ ext <> "".
Proof.
  unfold image_extensions, allowed_file_extensions.
  rewrite !elem_of_list_to_set, !elem_of_cons, elem_of_nil.
  intros H. split; [tauto|].
  intros ->. repeat (destruct H as [H|H]; [discriminate|]). exact H.
Qed.

Lemma lower_empty (s : string) : lower s = "" -> s = "".
Proof.
  destruct s as [|c s]; [reflexivity|]. unfold lower. simpl. discriminate.
Qed.

Section ReadErrors.

Variable fit_px : Image -> Z * Z -> Z -> Z -> rgb.
Variable resize_px : Image -> Z * Z -> Z -> Z -> rgb.
Variable blur_px : Image -> Z * Z -> Z -> Z -> rgb.
Variable contain : Image -> Z * Z -> Image.
Variable scale_dim : Z -> Z -> Z.
Variable Image_open : list Z -> result Image.
Variable Image_save : Image -> string -> result (list Z).
Variable exif_transpose : Image -> Image.
Variable parse_int : string -> result Z.
Variable src_dir : string.
Variable randrange : Z -> result Z.

Local Abbreviation upload_one :=
  (handle_file fit_px resize_px blur_px contain scale_dim
               Image_open Image_save exif_transpose parse_int src_dir).
Local Abbreviation saved_path file :=
  ((resolve_path src_dir "static/images/saved" ++ "/" ++ basename (filename file))%string).

Local Abbreviation stored_index settings :=
  (match image_index settings with Some i => i | None => 0 end).

Lemma open_image_fails (d : Disk) (locs : list string) (idx : Z) (path : string) (e : exn) :
  locs <> [] ->
  py_index locs idx = inr path ->
  Image_open_path Image_open d path = inl e ->
  open_image Image_open d idx (Some locs)
  = (inl (RuntimeError "Failed to read image file."),
     ["Failed to read image file: " ++ exn_message e]%string).
Proof.
  intros Hne Hidx Hopen. unfold open_image.
  destruct locs as [|l locs]; [contradiction|].
  rewrite Hidx. cbn [bind]. rewrite Hopen. reflexivity.
Qed.

Lemma open_image_ok (d : Disk) (idx : Z) (locs : list string) (path : string) (img : Image) :
  py_index locs idx = inr path ->
  Image_open_path Image_open d path = inr img ->
  open_image Image_open d idx (Some locs) = (inr img, []).
Proof.
  intros Hidx Hopen. unfold open_image.
  destruct locs as [|l locs].
  - unfold py_index in Hidx. cbn [length] in Hidx.
    destruct (idx <? 0); destruct (0 <=? _); cbn [andb] in Hidx;
      try discriminate; destruct (_ <? _); discriminate.
  - rewrite Hidx. cbn [bind]. rewrite Hopen. reflexivity.
Qed.

(** Whatever raises in the [try] block of lines 173-183 (the decoder, the
    conversion of [borderPercent], the fitter, the encoder), the handler
    logs a warning, saves the bytes as they came and records their path. *)
Lemma handle_file_fallback (form_data : list (string * string))
      (device_config : option DeviceConfig) (st : UploadState)
      (key : string) (file : FileStorage) (e : exn) :
  lower (remove_dots (splitext_ext (filename file))) ∈ image_extensions ->
  process_image fit_px resize_px blur_px contain scale_dim
                Image_open Image_save exif_transpose parse_int
                file form_data device_config (saved_path file) = inl e ->
  disk (upload_one form_data device_config st (key, file))
    = <[saved_path file := stream file]> (disk st) /\
  warnings (upload_one form_data device_config st (key, file))
    = (warnings st ++
         ["Image processing error for " ++ basename (filename file) ++ ": "
            ++ exn_message e]%string)%list /\
  (endswith key "[]" = false ->
   file_location_map (upload_one form_data device_config st (key, file)) !! key
     = Some (OnePath (saved_path file))) /\
  (endswith key "[]" = true ->
   (file_location_map st !! key = None ->
    file_location_map (upload_one form_data device_config st (key, file)) !! key
      = Some (PathList [saved_path file])) /\
   (forall ps, file_location_map st !! key = Some (PathList ps) ->
    file_location_map (upload_one form_data device_config st (key, file)) !! key
      = Some (PathList (ps ++ [saved_path file])))).
Proof.
  intros Hext Hproc.
  destruct (image_extension_allowed _ Hext) as [Hallowed Hne].
  assert (Hname : String.eqb (filename file) "" = false).
  { apply String.eqb_neq. intros Hempty. apply Hne. rewrite Hempty. reflexivity. }
  assert (Hext0 : String.eqb (remove_dots (splitext_ext (filename file))) "" = false).
  { apply String.eqb_neq. intros Hempty. apply Hne. rewrite Hempty. reflexivity. }
  unfold handle_file. rewrite Hname, Hext0.
  rewrite (bool_decide_eq_true_2 _ Hallowed), (bool_decide_eq_true_2 _ Hext).
  cbn [orb negb].
  rewrite Hproc.
  cbn [file_location_map disk warnings].
  split; [reflexivity|]. split; [reflexivity|]. split.
  - intros ->. apply lookup_insert_eq.
  - intros ->. split.
    + intros ->. apply lookup_insert_eq.
    + intros ps ->. apply lookup_insert_eq.
Qed.

(** A failure of the decoder is one of the exceptions of the block. *)
Lemma process_image_decoder (form_data : list (string * string))
      (device_config : option DeviceConfig) (file : FileStorage) (path : string) (e : exn) :
  Image_open (stream file) = inl e ->
  process_image fit_px resize_px blur_px contain scale_dim
                Image_open Image_save exif_transpose parse_int
                file form_data device_config path = inl e.
Proof. intros Hopen. unfold process_image. rewrite Hopen. reflexivity. Qed.

(** So is a refusal of the fitter. *)
Lemma process_image_fitter (form_data : list (string * string))
      (cfg : DeviceConfig) (file : FileStorage) (path : string)
      (img : Image) (b : Z) (e : exn) :
  Image_open (stream file) = inr img ->
  match form_get form_data "borderPercent" with
  | Some s => parse_int s
  | None => ret 0
  end = inr b ->
  _resize_and_rotate_image fit_px resize_px blur_px contain scale_dim
                           (exif_transpose img) cfg b = inl e ->
  process_image fit_px resize_px blur_px contain scale_dim
                Image_open Image_save exif_transpose parse_int
                file form_data (Some cfg) path = inl e.
Proof.
  intros Hopen Hb Hfit. unfold process_image. rewrite Hopen. cbn [bind].
  rewrite Hb. cbn [bind]. rewrite Hfit. reflexivity.
Qed.

(** C9, amended.  [Image.open] identifies a file and reads no pixel data.
    When it raises on the stored file of the selected image, [open_image]
    logs the failure once and raises RuntimeError("Failed to read image
    file."); [generate_image] passes the exception on to its caller and
    leaves the settings as they were, whether the index is the stored one
    or drawn at random.  When it returns, the image object is handed to
    the caller as it is, nothing is logged and the settings move on.  The
    upload handler recovers from every exception of its [try] block, a
    failure of the decoder or a refusal of the fitter among them: it logs
    a warning, saves the uploaded bytes unprocessed and returns their
    path, alone or appended to the list of its key. *)
Theorem read_error_surfaced (d : Disk) (settings : Settings) (locs : list string)
        (idx : Z) (path : string) :
  imageFiles settings = Some locs ->
  locs <> [] ->
  (randomize settings <> Some "true" /\
   idx = (if Z.of_nat (length locs) <=? stored_index settings
          then 0 else stored_index settings)) \/
  (randomize settings = Some "true" /\
   randrange (Z.of_nat (length locs)) = inr idx) ->
  py_index locs idx = inr path ->
  (forall e,
     Image_open_path Image_open d path = inl e ->
     generate_image Image_open randrange d settings
       = (inl (RuntimeError "Failed to read image file."), settings,
          ["Failed to read image file: " ++ exn_message e]%string)) /\
  (forall image,
     Image_open_path Image_open d path = inr image ->
     exists next,
       generate_image Image_open randrange d settings
       = (inr image, mkSettings (Some next) (imageFiles settings) (randomize settings),
          [])) /\
  (forall form_data device_config st key file e',
     lower (remove_dots (splitext_ext (filename file))) ∈ image_extensions ->
     process_image fit_px resize_px blur_px contain scale_dim
                   Image_open Image_save exif_transpose parse_int
                   file form_data device_config (saved_path file) = inl e' ->
     disk (upload_one form_data device_config st (key, file))
       = <[saved_path file := stream file]> (disk st) /\
     warnings (upload_one form_data device_config st (key, file))
       = (warnings st ++
            ["Image processing error for " ++ basename (filename file) ++ ": "
               ++ exn_message e']%string)%list /\
     (endswith key "[]" = false ->
      file_location_map (upload_one form_data device_config st (key, file)) !! key
        = Some (OnePath (saved_path file))) /\
     (endswith key "[]" = true ->
      (file_location_map st !! key = None ->
       file_location_map (upload_one form_data device_config st (key, file)) !! key
         = Some (PathList [saved_path file])) /\
      (forall ps, file_location_map st !! key = Some (PathList ps) ->
       file_location_map (upload_one form_data device_config st (key, file)) !! key
         = Some (PathList (ps ++ [saved_path file]))))) /\
  (forall form_data device_config file p e',
     Image_open (stream file) = inl e' ->
     process_image fit_px resize_px blur_px contain scale_dim
                   Image_open Image_save exif_transpose parse_int
                   file form_data device_config p = inl e') /\
  (forall form_data cfg file p img b e',
     Image_open (stream file) = inr img ->
     match form_get form_data "borderPercent" with
     | Some s => parse_int s
     | None => ret 0
     end = inr b ->
     _resize_and_rotate_image fit_px resize_px blur_px contain scale_dim
                              (exif_transpose img) cfg b = inl e' ->
     process_image fit_px resize_px blur_px contain scale_dim
                   Image_open Image_save exif_transpose parse_int
                   file form_data (Some cfg) p = inl e').
Proof.
  intros Hfiles Hne Hsel Hidx.
  split; [|split; [|split; [|split]]].
  - intros e Hopen.
    unfold generate_image. rewrite Hfiles.
    destruct Hsel as [[Hrand ->] | [Hrand Hdraw]].
    + assert (Hr : match randomize settings with
                   | Some r => String.eqb r "true"
                   | None => false
                   end = false).
      { destruct (randomize settings) as [r|]; [|reflexivity].
        apply String.eqb_neq. congruence. }
      rewrite Hr.
      rewrite (open_image_fails d locs _ path e Hne Hidx Hopen). reflexivity.
    + rewrite Hrand, Hdraw. cbn [String.eqb Ascii.eqb Bool.eqb andb].
      rewrite (open_image_fails d locs _ path e Hne Hidx Hopen). reflexivity.
  - intros image Hopen.
    unfold generate_image. rewrite Hfiles.
    destruct Hsel as [[Hrand ->] | [Hrand Hdraw]].
    + assert (Hr : match randomize settings with
                   | Some r => String.eqb r "true"
                   | None => false
                   end = false).
      { destruct (randomize settings) as [r|]; [|reflexivity].
        apply String.eqb_neq. congruence. }
      rewrite Hr.
      rewrite (open_image_ok d _ locs path image Hidx Hopen).
      eexists. reflexivity.
    + rewrite Hrand, Hdraw. cbn [String.eqb Ascii.eqb Bool.eqb andb].
      rewrite (open_image_ok d _ locs path image Hidx Hopen).
      eexists. reflexivity.
  - intros. apply handle_file_fallback; assumption.
  - intros. apply process_image_decoder; assumption.
  - intros form_data cfg file p img b e' H1 H2 H3.
    apply (process_image_fitter form_data cfg file p img b e' H1 H2 H3).
Qed.

End ReadErrors.

Lemma read_error_surfaced_witness :
  generate_image corrupt_open sample_randrange (disk corrupt_upload_state) sample_settings
  = (inl (RuntimeError "Failed to read image file."), sample_settings,
     ["Failed to read image file: cannot identify image file"]).
Proof.
  destruct (read_error_surfaced black_px black_px black_px contain_same scale_exact
              corrupt_open sample_save sample_exif sample_parse_int "src" sample_randrange
              (disk corrupt_upload_state) sample_settings [saved_photo] 0 saved_photo)
    as [H _].
  - reflexivity.
  - discriminate.
  - left. split; [discriminate | reflexivity].
  - vm_compute. reflexivity.
  - apply (H (OSError "cannot identify image file")). vm_compute. reflexivity.
Defined.

(** * Further properties *)

(** ** The packer and the conversion *)

Lemma lor_byte (a b : Z) :
  0 <= a < 256 -> 0 <= b < 256 -> 0 <= Z.lor a b < 256.
Proof.
  intros Ha Hb.
  assert (Hnn : 0 <= Z.lor a b) by (apply Z.lor_nonneg; lia).
  split; [exact Hnn|].
  destruct (Z.eq_dec (Z.lor a b) 0) as [-> | Hne]; [lia|].
  assert (Hlog : forall c, 0 <= c < 256 -> Z.log2 c < 8).
  { intros c Hc. destruct (Z.eq_dec c 0) as [-> | Hc0]; [reflexivity|].
    apply Z.log2_lt_pow2; lia. }
  change 256 with (2 ^ 8). apply Z.log2_lt_pow2; [lia|].
  rewrite Z.log2_lor by lia.
  apply Z.max_lub_lt; apply Hlog; assumption.
Qed.

Lemma broadcast_Forall (P Q R : Z -> Prop) (f : Z -> Z -> Z) (a b r : list Z) :
  (forall x y, P x -> Q y -> R (f x y)) ->
  Forall P a -> Forall Q b ->
  Numpy.broadcast f a b = inr r -> Forall R r.
Proof.
  intros Hf Ha Hb. unfold Numpy.broadcast.
  assert (Hzip : Forall R (Numpy.zip_with f a b)).
  { clear -Hf Ha Hb. revert b Hb.
    induction Ha as [|x a Hx _ IH]; intros b Hb; [constructor|].
    destruct Hb as [|y b Hy Hb]; [constructor|].
    cbn [Numpy.zip_with]. constructor; [apply Hf; assumption | apply IH; assumption]. }
  destruct (length a =? length b)%nat; [intros [= <-]; exact Hzip|].
  destruct a as [|x [|x' a]].
  - destruct b as [|y [|y' b]]; intros [= <-]; constructor.
  - intros [= <-]. apply Forall_cons in Ha as [Hx _]. clear Hzip.
    induction Hb as [|y b Hy _ IH]; cbn [List.map];
      [constructor | constructor; [apply Hf; assumption | exact IH]].
  - destruct b as [|y [|y' b]]; intros [= <-].
    apply Forall_cons in Hb as [Hy _]. clear Hzip.
    apply Forall_cons in Ha as [Hx Ha]. apply Forall_cons in Ha as [Hx' Ha].
    constructor; [apply Hf; assumption|]. constructor; [apply Hf; assumption|].
    induction Ha as [|z a0 Hz _ IH]; cbn [List.map];
      [constructor | constructor; [apply Hf; assumption | exact IH]].
Qed.

Lemma array_uint8_bytes (px : list (list Z)) :
  Forall (fun p => 0 <= p < 256) (Numpy.flatten (Numpy.array_uint8 px)).
Proof.
  unfold Numpy.flatten, Numpy.array_uint8.
  induction px as [|row rows IH]; cbn [List.map List.concat]; [constructor|].
  apply Forall_app. split; [|exact IH].
  induction row as [|p ps IHr]; cbn [List.map]; [constructor|].
  constructor; [|exact IHr].
  unfold Numpy.uint8. apply Z.mod_pos_bound. lia.
Qed.

Lemma lshift_bytes (a : list Z) (k : Z) :
  Forall (fun p => 0 <= p < 256) (Numpy.lshift a k).
Proof.
  unfold Numpy.lshift.
  induction a as [|p ps IH]; cbn [List.map]; [constructor|].
  constructor; [|exact IH].
  unfold Numpy.uint8. apply Z.mod_pos_bound. lia.
Qed.

(** X1.  Whatever integers the pixel array holds, a buffer the packer
    returns is a sequence of bytes: every element lies in 0..255. *)
Theorem pack_pixels_bytes (px : list (list Z)) (buf : list Z) :
  pack_pixels px = inr buf -> Forall (fun b => 0 <= b < 256) buf.
Proof.
  unfold pack_pixels, Numpy.bitor.
  pose proof (array_uint8_bytes px) as Hflat.
  destruct (Numpy.broadcast Z.lor _ _) as [e|r] eqn:Hb; cbn [bind ret]; [discriminate|].
  intros [= <-].
  eapply (broadcast_Forall (fun p => 0 <= p < 256) (fun p => 0 <= p < 256)); [| | |exact Hb].
  - intros x y Hx Hy. apply lor_byte; assumption.
  - apply lshift_bytes.
  - apply odd_slice_Forall. exact Hflat.
Qed.

Lemma pack_pixels_bytes_witness :
  pack_pixels [[1044; 300]; [0; 257]] = inr [108; 1] /\
  Forall (fun b => 0 <= b < 256) [108; 1].
Proof.
  split; [reflexivity|].
  apply (pack_pixels_bytes [[1044; 300]; [0; 257]]). reflexivity.
Defined.

Section ConversionFacts.

Variable share : Z -> Z -> Z.
Variable open_rgb : string -> result (list (list rgb)).

Lemma quantize_canvas (w h : nat) (img : list (list rgb)) :
  rgb_image w h img ->
  canvas 6 w h (p_pixels (quantize share PALETTE_IMAGE img)).
Proof.
  intros Himg.
  apply (shape_canvas w h img); [exact Himg | apply quantize_shape | apply quantize_range].
Qed.

Lemma convert_even (image_path : string) (w h : nat) (img : list (list rgb)) :
  open_rgb image_path = inr img -> rgb_image w h img -> Nat.even (w * h) = true ->
  convert_to_display_format share open_rgb image_path
  = inr (pack_flat (Numpy.flatten (p_pixels (quantize share PALETTE_IMAGE img)))) /\
  length (pack_flat (Numpy.flatten (p_pixels (quantize share PALETTE_IMAGE img))))
  = Nat.div2 (w * h).
Proof.
  intros Hopen Himg He.
  pose proof (quantize_canvas w h img Himg) as Hc.
  split.
  - unfold convert_to_display_format, resize_and_dither_image.
    rewrite Hopen. cbn [bind ret].
    apply (pack_pixels_even w h); [apply (canvas_weaken 6 16); [lia | exact Hc] | exact He].
  - pose proof (canvas_flat_length _ _ _ _ Hc) as Hlen.
    rewrite pack_flat_length by (rewrite Hlen; exact He). rewrite Hlen. reflexivity.
Qed.

Lemma convert_odd (image_path : string) (w h : nat) (img : list (list rgb)) :
  open_rgb image_path = inr img -> rgb_image w h img ->
  Nat.odd (w * h) = true -> (5 <= w * h)%nat ->
  convert_to_display_format share open_rgb image_path
  = inl (ValueError "operands could not be broadcast together").
Proof.
  intros Hopen Himg Ho H5.
  pose proof (quantize_canvas w h img Himg) as Hc.
  pose proof (canvas_flat_length _ _ _ _ Hc) as Hlen.
  unfold convert_to_display_format, resize_and_dither_image.
  rewrite Hopen. cbn [bind ret]. unfold pack_pixels.
  rewrite (array_uint8_id 6 w h _ ltac:(lia) Hc).
  unfold Numpy.bitor.
  rewrite broadcast_mismatch; [reflexivity | | |].
  - unfold Numpy.lshift. rewrite List.length_map, even_slice_length, odd_slice_length.
    rewrite div2_odd_succ by (rewrite Hlen; exact Ho). lia.
  - unfold Numpy.lshift. rewrite List.length_map, even_slice_length, Hlen.
    rewrite Nat.div2_div. apply (Nat.Div0.div_le_mono 4 (S (w * h)) 2); lia.
  - rewrite odd_slice_length, Hlen.
    rewrite Nat.div2_div. apply (Nat.Div0.div_le_mono 4 (w * h) 2); lia.
Qed.

End ConversionFacts.

(** ** The request handlers of [main.py] *)

Lemma color_of_index (i : Z) :
  0 <= i < 6 -> In (color_of palette_data i) six_colors.
Proof.
  intros Hi.
  assert (Hcases : i = 0 \/ i = 1 \/ i = 2 \/ i = 3 \/ i = 4 \/ i = 5) by lia.
  unfold six_colors, In.
  destruct Hcases as [-> | [-> | [-> | [-> | [-> | ->]]]]];
    [ left | right; left | do 2 right; left | do 3 right; left
    | do 4 right; left | do 5 right; left ]; vm_compute; reflexivity.
Qed.

Section HandlerFacts.

Variable share : Z -> Z -> Z.
Variable open_rgb : string -> result (list (list rgb)).
Variable path_exists : string -> bool.
Variable getmtime : string -> Q.
Variable strptime : string -> result Z.
Variable utc_offset : Z -> Z.
Variable timestamp_raises : Z -> option exn.
Variable send_file : Request -> string -> string -> result Response.

Local Abbreviation handler :=
  (get_current_image share open_rgb path_exists getmtime strptime utc_offset
     timestamp_raises send_file).
Local Abbreviation file_mtime := (py_int (getmtime current_image_path)).
Local Abbreviation gate request :=
  (not_modified strptime utc_offset timestamp_raises file_mtime
     (if_modified_since request)).
Local Abbreviation output_format request :=
  (lower (match format_arg request with Some f => f | None => "spectra6" end)).
Local Abbreviation packed_format request :=
  (String.eqb (output_format request) "raw" || String.eqb (output_format request) "spectra6").
Local Abbreviation preview := (preview_image share open_rgb path_exists).

(** The handler once the file exists and the gate lets the request pass. *)
Lemma handler_passed (request : Request) :
  path_exists current_image_path = true ->
  gate request = inr false ->
  handler request =
  if packed_format request then
    match convert_to_display_format share open_rgb current_image_path with
    | inr packed_data =>
        inr (mkResponse 200 (BytesBody packed_data) "application/octet-stream"
                        (Some file_mtime) (Some "no-cache")
                        (Some (Z.of_nat (length packed_data))))
    | inl e => inr (mkResponse 500 (JsonError (exn_message e)) "application/json"
                               None None None)
    end
  else
    match send_file request current_image_path "image/png" with
    | inr response =>
        inr (mkResponse (status response) (body response) (mimetype response)
                        (Some file_mtime) (Some "no-cache") (content_length response))
    | inl e => inl e
    end.
Proof.
  intros Hex Hgate. unfold get_current_image, serve_image. rewrite Hex, Hgate.
  cbn [negb bind ret]. reflexivity.
Qed.

(** X2.  A request for the packed format without an [If-Modified-Since]
    header, or with an empty one, is never answered 304: the handler
    returns 200 or, when the conversion fails, 500. *)
Theorem unconditional_request_served (request : Request) :
  path_exists current_image_path = true ->
  if_modified_since request = None \/ if_modified_since request = Some "" ->
  packed_format request = true ->
  exists response,
    handler request = inr response /\
    (status response = 200 \/ status response = 500) /\
    (status response = 200 -> last_modified response = Some file_mtime).
Proof.
  intros Hex Hhdr Hfmt.
  assert (Hgate : gate request = inr false).
  { destruct Hhdr as [-> | ->]; reflexivity. }
  rewrite (handler_passed request Hex Hgate), Hfmt.
  destruct (convert_to_display_format share open_rgb current_image_path) as [e|buf];
    eexists; (split; [reflexivity|]); cbn [status last_modified];
    split; auto; intros; (reflexivity || discriminate).
Qed.

(** X3.  When the gate lets a request for the packed format pass and the
    image cannot be decoded, the answer is 500, its body the JSON error
    with the message of the decoder's exception, and the handler sets
    neither [Last-Modified] nor [Cache-Control] on it. *)
Theorem decode_failure_500 (request : Request) (e : exn) :
  path_exists current_image_path = true ->
  gate request = inr false ->
  packed_format request = true ->
  open_rgb current_image_path = inl e ->
  exists response,
    handler request = inr response /\
    status response = 500 /\
    body response = JsonError (exn_message e) /\
    mimetype response = "application/json" /\
    last_modified response = None /\
    cache_control response = None.
Proof.
  intros Hex Hgate Hfmt Hopen.
  rewrite (handler_passed request Hex Hgate), Hfmt.
  unfold convert_to_display_format, resize_and_dither_image. rewrite Hopen.
  eexists. split; [reflexivity|]. cbn. repeat split.
Qed.

(** X4.  An image file with an odd number of pixels, five or more, cannot
    be served in the packed format: the broadcast error of the packer
    comes back as a 500 response whose message starts with numpy's
    "operands could not be broadcast together". *)
Theorem odd_image_500 (request : Request) (w h : nat) (img : list (list rgb)) :
  path_exists current_image_path = true ->
  gate request = inr false ->
  packed_format request = true ->
  open_rgb current_image_path = inr img ->
  rgb_image w h img ->
  Nat.odd (w * h) = true -> (5 <= w * h)%nat ->
  exists response msg,
    handler request = inr response /\
    status response = 500 /\
    body response = JsonError msg /\
    String.prefix "operands could not be broadcast together" msg = true /\
    last_modified response = None.
Proof.
  intros Hex Hgate Hfmt Hopen Himg Ho H5.
  rewrite (handler_passed request Hex Hgate), Hfmt.
  rewrite (convert_odd share open_rgb _ w h img Hopen Himg Ho H5).
  eexists. eexists. split; [reflexivity|]. cbn [status body last_modified exn_message].
  repeat split.
Qed.

(** X5.  For an image file of w x h pixels, w*h even, a request for the
    packed format that passes the gate is answered 200 with a body of
    w*h/2 bytes, each holding two palette indices, a [Content-Length] of
    that number and [Last-Modified] set to the truncated file time. *)
Theorem even_image_200 (request : Request) (w h : nat) (img : list (list rgb)) :
  path_exists current_image_path = true ->
  gate request = inr false ->
  packed_format request = true ->
  open_rgb current_image_path = inr img ->
  rgb_image w h img ->
  Nat.even (w * h) = true ->
  exists packed_data,
    handler request
    = inr (mkResponse 200 (BytesBody packed_data) "application/octet-stream"
                      (Some file_mtime) (Some "no-cache")
                      (Some (Z.of_nat (w * h) / 2))) /\
    Z.of_nat (length packed_data) = Z.of_nat (w * h) / 2 /\
    Forall nibbles_valid packed_data.
Proof.
  intros Hex Hgate Hfmt Hopen Himg He.
  destruct (convert_even share open_rgb _ w h img Hopen Himg He) as [Hconv Hlen].
  set (buf := pack_flat _) in *.
  assert (HlenZ : Z.of_nat (length buf) = Z.of_nat (w * h) / 2).
  { rewrite Hlen, Nat.div2_div, Nat2Z.inj_div. reflexivity. }
  exists buf. split; [|split; [exact HlenZ|]].
  - rewrite (handler_passed request Hex Hgate), Hfmt, Hconv, HlenZ. reflexivity.
  - unfold convert_to_display_format, resize_and_dither_image in Hconv.
    rewrite Hopen in Hconv. cbn [bind ret] in Hconv.
    apply (pack_pixels_valid _ _ (quantize_range share img) Hconv).
Qed.

(** X7.  The [format] argument is compared in lower case: a spelling of
    "raw" or "spectra6" in any case is answered like a request without the
    argument.  For every other value, once the gate is passed, the image
    file is not decoded: the answer is the one [send_file] gives for the
    request (the file, or 304, 206 or 416 by the request's own validators
    and range) with [Last-Modified] and [Cache-Control] set by the
    handler, and an exception of [send_file] leaves the handler. *)
Theorem format_dispatch (request : Request) (f : string) :
  format_arg request = Some f ->
  (lower f = "raw" \/ lower f = "spectra6" ->
   handler request = handler (mkRequest (if_modified_since request) None)) /\
  (lower f <> "raw" -> lower f <> "spectra6" ->
   path_exists current_image_path = true ->
   gate request = inr false ->
   (forall response,
      send_file request current_image_path "image/png" = inr response ->
      handler request
      = inr (mkResponse (status response) (body response) (mimetype response)
                        (Some file_mtime) (Some "no-cache")
                        (content_length response))) /\
   (forall e,
      send_file request current_image_path "image/png" = inl e ->
      handler request = inl e)).
Proof.
  intros Hf. split.
  - intros Hlow. unfold get_current_image, serve_image. rewrite Hf.
    cbn [if_modified_since format_arg].
    destruct Hlow as [-> | ->]; reflexivity.
  - intros Hraw Hspectra Hex Hgate.
    rewrite (handler_passed request Hex Hgate), Hf.
    apply String.eqb_neq in Hraw. apply String.eqb_neq in Hspectra.
    rewrite Hraw, Hspectra. cbn [orb].
    split; [intros response Hs | intros e Hs]; rewrite Hs; reflexivity.
Qed.



End HandlerFacts.

Lemma unconditional_request_served_witness :
  exists response,
    get_current_image share_trunc open_red sample_exists sample_mtime sample_strptime
      zone_utc in_range sample_send_file
      (mkRequest (Some "") None) = inr response /\
    (status response = 200 \/ status response = 500) /\
    (status response = 200 -> last_modified response = Some 1700000000).
Proof.
  apply (unconditional_request_served share_trunc open_red sample_exists sample_mtime
           sample_strptime zone_utc in_range sample_send_file
           (mkRequest (Some "") None)).
  - reflexivity.
  - right. reflexivity.
  - reflexivity.
Defined.

Lemma decode_failure_500_witness :
  exists response,
    get_current_image share_trunc open_fails sample_exists sample_mtime sample_strptime
      zone_utc in_range sample_send_file
      (mkRequest None (Some "raw")) = inr response /\
    status response = 500 /\
    body response = JsonError "cannot identify image file" /\
    mimetype response = "application/json" /\
    last_modified response = None /\
    cache_control response = None.
Proof.
  apply (decode_failure_500 share_trunc open_fails sample_exists sample_mtime
           sample_strptime zone_utc in_range sample_send_file
           (mkRequest None (Some "raw")) (OSError "cannot identify image file"));
    reflexivity.
Defined.

Lemma odd_image_500_witness :
  exists response msg,
    get_current_image share_trunc open_5x1 sample_exists sample_mtime sample_strptime
      zone_utc in_range sample_send_file
      (mkRequest None None) = inr response /\
    status response = 500 /\
    body response = JsonError msg /\
    String.prefix "operands could not be broadcast together" msg = true /\
    last_modified response = None.
Proof.
  apply (odd_image_500 share_trunc open_5x1 sample_exists sample_mtime sample_strptime
           zone_utc in_range sample_send_file
           (mkRequest None None) 5 1 image_5x1);
    first [reflexivity | split; [reflexivity | repeat constructor] | simpl; lia].
Defined.

Lemma even_image_200_witness :
  exists packed_data,
    get_current_image share_trunc open_3x2 sample_exists sample_mtime sample_strptime
      zone_utc in_range sample_send_file
      (mkRequest None None)
    = inr (mkResponse 200 (BytesBody packed_data) "application/octet-stream"
                      (Some 1700000000) (Some "no-cache") (Some (Z.of_nat (3 * 2) / 2))) /\
    Z.of_nat (length packed_data) = Z.of_nat (3 * 2) / 2 /\
    Forall nibbles_valid packed_data.
Proof.
  apply (even_image_200 share_trunc open_3x2 sample_exists sample_mtime sample_strptime
           zone_utc in_range sample_send_file
           (mkRequest None None) 3 2 image_3x2);
    first [reflexivity | split; [reflexivity | repeat constructor]].
Defined.

Lemma format_dispatch_witness :
  get_current_image share_trunc open_red sample_exists sample_mtime sample_strptime
    zone_utc in_range sample_send_file
    (mkRequest None (Some "RAW"))
  = get_current_image share_trunc open_red sample_exists sample_mtime sample_strptime
      zone_utc in_range sample_send_file
      (mkRequest None None) /\
  get_current_image share_trunc open_red sample_exists sample_mtime sample_strptime
    zone_utc in_range sample_send_file
    (mkRequest None (Some "png"))
  = inr (mkResponse 200 (FileBody current_image_path) "image/png"
                    (Some 1700000000) (Some "no-cache") (Some 312)).
Proof.
  split.
  - destruct (format_dispatch share_trunc open_red sample_exists sample_mtime
                sample_strptime zone_utc in_range sample_send_file
                (mkRequest None (Some "RAW")) "RAW" eq_refl) as [H _].
    apply H. left. reflexivity.
  - destruct (format_dispatch share_trunc open_red sample_exists sample_mtime
                sample_strptime zone_utc in_range sample_send_file
                (mkRequest None (Some "png")) "png" eq_refl) as [_ H].
    destruct H as [H _]; [discriminate | discriminate | reflexivity | reflexivity |].
    apply (H (mkResponse 200 (FileBody current_image_path) "image/png"
                         (Some 1700000000) None (Some 312))).
    reflexivity.
Defined.



(** ** [parse_form] *)

Lemma form_get_cons (k v key : string) (rest : list (string * string)) :
  form_get ((k, v) :: rest) key = if String.eqb k key then Some v else form_get rest key.
Proof.
  unfold form_get. cbn [List.filter fst]. destruct (String.eqb k key); reflexivity.
Qed.

Lemma form_to_dict_lookup (request_form : list (string * string)) (key : string) :
  form_to_dict request_form !! key = FormOne <$> form_get request_form key.
Proof.
  induction request_form as [|[k v] rest IH].
  - reflexivity.
  - rewrite form_get_cons. unfold form_to_dict. cbn [fold_right fst snd].
    fold (form_to_dict rest).
    destruct (String.eqb_spec k key) as [-> | Hne].
    + rewrite lookup_insert_eq. reflexivity.
    + rewrite lookup_insert_ne by exact Hne. exact IH.
Qed.

Lemma form_lists_lookup (request_form : list (string * string)) (key : string)
      (keys : list string) :
  forall d : gmap string FormValue,
    fold_left
      (fun (d : gmap string FormValue) k =>
         if endswith k "[]"
         then <[k := FormMany (form_getlist request_form k)]> d
         else d)
      keys d !! key
    = if endswith key "[]" && existsb (fun k => String.eqb k key) keys
      then Some (FormMany (form_getlist request_form key))
      else d !! key.
Proof.
  induction keys as [|k keys IH]; intros d.
  - rewrite andb_false_r. reflexivity.
  - cbn [fold_left existsb]. rewrite IH.
    destruct (String.eqb_spec k key) as [-> | Hne].
    + cbn [orb]. rewrite andb_true_r.
      destruct (endswith key "[]") eqn:Hend; cbn [andb].
      * destruct (existsb _ keys); [reflexivity | apply lookup_insert_eq].
      * reflexivity.
    + cbn [orb].
      destruct (endswith key "[]" && existsb (fun k0 => String.eqb k0 key) keys);
        [reflexivity|].
      destruct (endswith k "[]"); [apply lookup_insert_ne; exact Hne | reflexivity].
Qed.

Lemma form_keys_get (request_form : list (string * string)) (key : string) :
  existsb (fun k => String.eqb k key) (List.map fst request_form)
  = match form_get request_form key with Some _ => true | None => false end.
Proof.
  induction request_form as [|[k v] rest IH]; [reflexivity|].
  rewrite form_get_cons. cbn [List.map existsb fst].
  destruct (String.eqb k key); [reflexivity | exact IH].
Qed.

(** X10.  The dictionary [parse_form] returns has exactly the keys of the
    form: a key ending in [[]] holds all its values in the order of the
    request, any other key holds its first value. *)
Theorem parse_form_lookup (request_form : list (string * string)) (key : string) :
  parse_form request_form !! key
  = match form_get request_form key with
    | None => None
    | Some v =>
        Some (if endswith key "[]"
              then FormMany (form_getlist request_form key)
              else FormOne v)
    end.
Proof.
  unfold parse_form. rewrite form_lists_lookup, form_keys_get, form_to_dict_lookup.
  destruct (form_get request_form key) as [v|]; cbn [fmap option_fmap option_map].
  - destruct (endswith key "[]"); reflexivity.
  - rewrite andb_false_r. reflexivity.
Qed.

(** ** More on the upload handler *)

Lemma after_last_no_sep (sep : ascii) (l : list ascii) :
  ~ In sep (after_last sep l).
Proof.
  induction l as [|c t IH]; [intros []|].
  cbn [after_last].
  destruct (existsb (Ascii.eqb sep) t) eqn:Ht; [exact IH|].
  assert (Hnot : ~ In sep t).
  { intros Hin. apply Bool.not_true_iff_false in Ht. apply Ht.
    apply existsb_exists. exists sep. split; [exact Hin | apply Ascii.eqb_refl]. }
  destruct (Ascii.eqb_spec sep c) as [-> | Hne]; [exact Hnot|].
  intros [Heq | Hin]; [congruence | contradiction].
Qed.

(** The name a file is saved under never contains a slash. *)
Lemma basename_no_slash (p : string) :
  ~ In "/"%char (list_ascii_of_string (basename p)).
Proof.
  unfold basename. rewrite list_ascii_of_string_of_list_ascii.
  apply after_last_no_sep.
Qed.

Lemma empty_not_allowed : "" ∉ allowed_file_extensions.
Proof.
  unfold allowed_file_extensions.
  rewrite elem_of_list_to_set, !elem_of_cons, elem_of_nil.
  intros H. repeat (destruct H as [H|H]; [discriminate|]). exact H.
Qed.

Section UploadFacts.

Variable fit_px : Image -> Z * Z -> Z -> Z -> rgb.
Variable resize_px : Image -> Z * Z -> Z -> Z -> rgb.
Variable blur_px : Image -> Z * Z -> Z -> Z -> rgb.
Variable contain : Image -> Z * Z -> Image.
Variable scale_dim : Z -> Z -> Z.
Variable Image_open : list Z -> result Image.
Variable Image_save : Image -> string -> result (list Z).
Variable exif_transpose : Image -> Image.
Variable parse_int : string -> result Z.
Variable src_dir : string.

Local Abbreviation upload_one :=
  (handle_file fit_px resize_px blur_px contain scale_dim
               Image_open Image_save exif_transpose parse_int src_dir).
Local Abbreviation upload :=
  (handle_request_files fit_px resize_px blur_px contain scale_dim
                        Image_open Image_save exif_transpose parse_int src_dir).
Local Abbreviation process :=
  (process_image fit_px resize_px blur_px contain scale_dim
                 Image_open Image_save exif_transpose parse_int).
Local Abbreviation fitter := (_resize_and_rotate_image fit_px resize_px blur_px contain scale_dim).
Local Abbreviation save_dir := (resolve_path src_dir "static/images/saved").
Local Abbreviation saved_path file_ := ((save_dir ++ "/" ++ basename (filename file_))%string).
Local Abbreviation extension file_ := (lower (remove_dots (splitext_ext (filename file_)))).

(** What [handle_file] does with a file whose extension is allowed. *)
Lemma handle_file_accepted (form_data : list (string * string))
      (device_config : option DeviceConfig) (st : UploadState)
      (key : string) (file_ : FileStorage) :
  extension file_ ∈ allowed_file_extensions ->
  upload_one form_data device_config st (key, file_)
  = let st1 :=
      if bool_decide (extension file_ ∈ image_extensions) then
        match process file_ form_data device_config (saved_path file_) with
        | inr bytes =>
            mkUploadState (file_location_map st)
                          (<[saved_path file_ := bytes]> (disk st)) (warnings st)
        | inl e =>
            mkUploadState (file_location_map st)
                          (<[saved_path file_ := stream file_]> (disk st))
                          (warnings st ++
                             ["Image processing error for " ++ basename (filename file_)
                                ++ ": " ++ exn_message e]%string)%list
        end
      else mkUploadState (file_location_map st)
                         (<[saved_path file_ := stream file_]> (disk st)) (warnings st) in
    mkUploadState
      (if endswith key "[]" then
         match file_location_map st1 !! key with
         | Some (PathList ps) =>
             <[key := PathList (ps ++ [saved_path file_])]> (file_location_map st1)
         | Some (OnePath _) => file_location_map st1
         | None => <[key := PathList [saved_path file_]]> (file_location_map st1)
         end
       else <[key := OnePath (saved_path file_)]> (file_location_map st1))
      (disk st1) (warnings st1).
Proof.
  intros Hallowed.
  assert (Hext : String.eqb (remove_dots (splitext_ext (filename file_))) "" = false).
  { apply String.eqb_neq. intros Hempty. rewrite Hempty in Hallowed.
    exact (empty_not_allowed Hallowed). }
  assert (Hname : String.eqb (filename file_) "" = false).
  { apply String.eqb_neq. intros Hempty. rewrite Hempty in Hallowed.
    exact (empty_not_allowed Hallowed). }
  unfold handle_file. rewrite Hname, Hext, (bool_decide_eq_true_2 _ Hallowed).
  reflexivity.
Qed.

(** X11.  A file with no name, no extension or an extension outside the
    allowed set is skipped: nothing is saved, logged or returned for it. *)
Theorem upload_skipped (form_data : list (string * string))
        (device_config : option DeviceConfig) (st : UploadState)
        (key : string) (file_ : FileStorage) :
  extension file_ ∉ allowed_file_extensions ->
  upload_one form_data device_config st (key, file_) = st.
Proof.
  intros Hnot. unfold handle_file.
  destruct (String.eqb (filename file_) ""); [reflexivity|].
  destruct (String.eqb (remove_dots (splitext_ext (filename file_))) ""); [reflexivity|].
  rewrite (bool_decide_eq_false_2 _ Hnot). reflexivity.
Qed.

(** The disk after one file: unchanged, or written at the file's path in
    the directory of saved images. *)
Lemma handle_file_disk (form_data : list (string * string))
      (device_config : option DeviceConfig) (st : UploadState) (entry : string * FileStorage) :
  disk (upload_one form_data device_config st entry) = disk st \/
  exists content,
    disk (upload_one form_data device_config st entry)
    = <[saved_path (snd entry) := content]> (disk st).
Proof.
  destruct entry as [key file_]. cbn [snd].
  destruct (decide (extension file_ ∈ allowed_file_extensions)) as [Hin | Hnot].
  - right. rewrite (handle_file_accepted _ _ _ _ _ Hin). cbv zeta. cbn [disk].
    destruct (bool_decide (extension file_ ∈ image_extensions)).
    + destruct (process file_ form_data device_config (saved_path file_));
        eexists; reflexivity.
    + eexists; reflexivity.
  - left. rewrite (upload_skipped _ _ _ _ _ Hnot). reflexivity.
Qed.

Lemma upload_fold_disk (form_data : list (string * string))
      (device_config : option DeviceConfig) (P : Disk -> Prop)
      (files : list (string * FileStorage)) :
  (forall d name content,
     ~ In "/"%char (list_ascii_of_string name) ->
     P d -> P (<[(save_dir ++ "/" ++ name)%string := content]> d)) ->
  forall st, P (disk st) ->
    P (disk (fold_left (upload_one form_data device_config) files st)).
Proof.
  intros Hstep. induction files as [|entry files IH]; intros st Hst; [exact Hst|].
  cbn [fold_left]. apply IH.
  destruct (handle_file_disk form_data device_config st entry) as [-> | [content ->]];
    [exact Hst|].
  apply Hstep; [apply basename_no_slash | exact Hst].
Qed.

(** X12.  Uploads cannot leave the directory of saved images: whatever the
    names of the uploaded files, a path whose content differs after the
    call is that directory followed by one name without a slash. *)
Theorem upload_confined (request_files : list (string * FileStorage))
        (form_data : list (string * string)) (device_config : option DeviceConfig)
        (disk0 : Disk) (p : string) :
  disk (upload request_files form_data device_config disk0) !! p <> disk0 !! p ->
  exists name,
    p = (save_dir ++ "/" ++ name)%string /\
    ~ In "/"%char (list_ascii_of_string name).
Proof.
  unfold handle_request_files.
  set (st0 := mkUploadState _ disk0 []).
  apply (upload_fold_disk form_data device_config
           (fun d => d !! p <> disk0 !! p ->
                     exists name, p = (save_dir ++ "/" ++ name)%string /\
                                  ~ In "/"%char (list_ascii_of_string name))).
  - cbv beta. unfold Disk. intros d name content Hname IHd Hdiff.
    destruct (decide ((save_dir ++ "/" ++ name)%string = p)) as [<- | Hne].
    + exists name. split; [reflexivity | exact Hname].
    + rewrite lookup_insert_ne in Hdiff by exact Hne. exact (IHd Hdiff).
  - cbn [disk]. intros Hdiff. contradiction.
Qed.

(** X13.  The handler never deletes: a path present on the disk before the
    call is present after it. *)
Theorem upload_keeps_files (request_files : list (string * FileStorage))
        (form_data : list (string * string)) (device_config : option DeviceConfig)
        (disk0 : Disk) (p : string) :
  is_Some (disk0 !! p) ->
  is_Some (disk (upload request_files form_data device_config disk0) !! p).
Proof.
  intros Hp. unfold handle_request_files.
  apply (upload_fold_disk form_data device_config (fun d => is_Some (d !! p))).
  - cbv beta. unfold Disk. intros d name content _ Hd.
    destruct (decide ((save_dir ++ "/" ++ name)%string = p)) as [<- | Hne].
    + rewrite lookup_insert_eq. eexists; reflexivity.
    + rewrite lookup_insert_ne by exact Hne. exact Hd.
  - exact Hp.
Qed.

(** X14.  A file with an allowed extension that is not an image extension
    (a PDF) is saved byte for byte, without being decoded and without a
    warning. *)
Theorem upload_other_verbatim (form_data : list (string * string))
        (device_config : option DeviceConfig) (st : UploadState)
        (key : string) (file_ : FileStorage) :
  extension file_ ∈ allowed_file_extensions ->
  extension file_ ∉ image_extensions ->
  disk (upload_one form_data device_config st (key, file_))
    = <[saved_path file_ := stream file_]> (disk st) /\
  warnings (upload_one form_data device_config st (key, file_)) = warnings st.
Proof.
  intros Hin Hnot. rewrite (handle_file_accepted _ _ _ _ _ Hin). cbv zeta.
  rewrite (bool_decide_eq_false_2 _ Hnot). split; reflexivity.
Qed.

(** X15.  With a device configuration and no border field, a decodable
    upload is fitted to the display before it is saved: the image handed to
    the encoder has exactly the display resolution, its encoding is what
    lands on disk, and nothing is logged.  If the encoder fails, the
    uploaded bytes are saved instead. *)
Theorem upload_fitted (form_data : list (string * string)) (cfg : DeviceConfig)
        (st : UploadState) (key : string) (file_ : FileStorage) (img : Image) (w h : Z) :
  extension file_ ∈ image_extensions ->
  Image_open (stream file_) = inr img ->
  form_get form_data "borderPercent" = None ->
  resolution cfg = (w, h) -> 1 <= w -> 1 <= h ->
  exists out,
    fitter (exif_transpose img) cfg 0 = inr out /\
    width out = w /\ height out = h /\
    (forall bytes,
       Image_save out (saved_path file_) = inr bytes ->
       disk (upload_one form_data (Some cfg) st (key, file_))
         = <[saved_path file_ := bytes]> (disk st) /\
       warnings (upload_one form_data (Some cfg) st (key, file_)) = warnings st) /\
    (forall e,
       Image_save out (saved_path file_) = inl e ->
       disk (upload_one form_data (Some cfg) st (key, file_))
         = <[saved_path file_ := stream file_]> (disk st)).
Proof.
  intros Hext Hopen Hborder Hres Hw Hh.
  destruct (image_extension_allowed _ Hext) as [Hallowed _].
  destruct (fit_stage_size fit_px resize_px blur_px contain scale_dim
              (exif_transpose img) cfg w h Hres Hw Hh) as [out [Hfit [Hwo Hho]]].
  exists out. split; [exact Hfit|]. split; [exact Hwo|]. split; [exact Hho|].
  assert (Hproc : process file_ form_data (Some cfg) (saved_path file_)
                  = Image_save out (saved_path file_)).
  { unfold process_image. rewrite Hopen, Hborder. cbn [bind ret].
    rewrite Hfit. reflexivity. }
  rewrite (handle_file_accepted _ _ _ _ _ Hallowed). cbv zeta.
  rewrite (bool_decide_eq_true_2 _ Hext), Hproc.
  split.
  - intros bytes Hsave. rewrite Hsave. split; reflexivity.
  - intros e Hsave. rewrite Hsave. reflexivity.
Qed.

(** X16.  A border field that [int] cannot read does not fail the upload:
    the image is saved as it was uploaded, unfitted, and the exception is
    logged as a warning. *)
Theorem upload_bad_border (form_data : list (string * string)) (cfg : DeviceConfig)
        (st : UploadState) (key : string) (file_ : FileStorage) (img : Image)
        (s : string) (e : exn) :
  extension file_ ∈ image_extensions ->
  Image_open (stream file_) = inr img ->
  form_get form_data "borderPercent" = Some s ->
  parse_int s = inl e ->
  disk (upload_one form_data (Some cfg) st (key, file_))
    = <[saved_path file_ := stream file_]> (disk st) /\
  warnings (upload_one form_data (Some cfg) st (key, file_))
    = (warnings st ++
         ["Image processing error for " ++ basename (filename file_) ++ ": "
            ++ exn_message e]%string)%list.
Proof.
  intros Hext Hopen Hborder Hparse.
  destruct (image_extension_allowed _ Hext) as [Hallowed _].
  rewrite (handle_file_accepted _ _ _ _ _ Hallowed). cbv zeta.
  rewrite (bool_decide_eq_true_2 _ Hext).
  unfold process_image. rewrite Hopen, Hborder, Hparse. cbn [bind ret].
  split; reflexivity.
Qed.

(** X17.  Under a key ending in [[]] the paths accumulate in upload order:
    the path of an accepted file is appended to the list the key holds. *)
Theorem upload_list_appends (form_data : list (string * string))
        (device_config : option DeviceConfig) (st : UploadState)
        (key : string) (file_ : FileStorage) (ps : list string) :
  extension file_ ∈ allowed_file_extensions ->
  endswith key "[]" = true ->
  (file_location_map st !! key = Some (PathList ps) \/
   (file_location_map st !! key = None /\ ps = [])) ->
  file_location_map (upload_one form_data device_config st (key, file_)) !! key
  = Some (PathList (ps ++ [saved_path file_])).
Proof.
  intros Hallowed Hend Hprev.
  rewrite (handle_file_accepted _ _ _ _ _ Hallowed). cbv zeta. rewrite Hend.
  cbn [file_location_map].
  assert (Hmap : forall st1 : UploadState,
             file_location_map st1 = file_location_map st ->
             match file_location_map st1 !! key with
             | Some (PathList ps0) =>
                 <[key := PathList (ps0 ++ [saved_path file_])]> (file_location_map st1)
             | Some (OnePath _) => file_location_map st1
             | None => <[key := PathList [saved_path file_]]> (file_location_map st1)
             end !! key = Some (PathList (ps ++ [saved_path file_]))).
  { intros st1 ->. destruct Hprev as [-> | [-> ->]]; apply lookup_insert_eq. }
  apply Hmap.
  destruct (bool_decide (extension file_ ∈ image_extensions)); [|reflexivity].
  destruct (process file_ form_data device_config (saved_path file_)); reflexivity.
Qed.

End UploadFacts.

(** Membership in the extension sets, decided by evaluation. *)
Ltac decide_true :=
  match goal with
  | |- ?P => apply (bool_decide_eq_true_1 P); vm_compute; reflexivity
  end.
Ltac decide_false :=
  match goal with
  | |- ~ ?P => apply (bool_decide_eq_false_1 P); vm_compute; reflexivity
  | |- ?x ∉ ?X => apply (bool_decide_eq_false_1 (x ∈ X)); vm_compute; reflexivity
  end.

Lemma upload_skipped_witness :
  sample_handle_file [] None empty_upload_state ("attachment", script_upload)
  = empty_upload_state.
Proof.
  apply (upload_skipped black_px black_px black_px contain_same scale_exact
           photo_open size_save sample_exif sample_parse_int "src").
  decide_false.
Defined.

Lemma upload_confined_witness :
  exists name,
    "src/static/images/saved/photo.JPG" = ("src/static/images/saved" ++ "/" ++ name)%string /\
    ~ In "/"%char (list_ascii_of_string name).
Proof.
  apply (upload_confined black_px black_px black_px contain_same scale_exact
           photo_open size_save sample_exif sample_parse_int "src"
           [("imageFile", photo_upload)] [] None ∅).
  vm_compute. discriminate.
Defined.

Lemma upload_keeps_files_witness :
  is_Some (disk (sample_handle_request_files [("imageFile", photo_upload)] [] None sample_disk)
             !! "keep.txt").
Proof.
  apply (upload_keeps_files black_px black_px black_px contain_same scale_exact
           photo_open size_save sample_exif sample_parse_int "src").
  vm_compute. eexists. reflexivity.
Defined.

Lemma upload_other_verbatim_witness :
  disk (sample_handle_file [] None empty_upload_state ("attachment", pdf_upload))
    = <["src/static/images/saved/notes.pdf" := [37; 80; 68; 70]]> ∅ /\
  warnings (sample_handle_file [] None empty_upload_state ("attachment", pdf_upload)) = [].
Proof.
  apply (upload_other_verbatim black_px black_px black_px contain_same scale_exact
           photo_open size_save sample_exif sample_parse_int "src"
           [] None empty_upload_state "attachment" pdf_upload).
  - decide_true.
  - decide_false.
Defined.

Lemma upload_fitted_witness :
  exists out,
    _resize_and_rotate_image black_px black_px black_px contain_same scale_exact
                             (sample_exif photo_1600x1200) spectra6_vertical 0 = inr out /\
    width out = 800 /\ height out = 480 /\
    disk (sample_handle_file [] (Some spectra6_vertical) empty_upload_state
            ("imageFile", photo_upload))
    = <["src/static/images/saved/photo.JPG" := [800; 480]]> ∅.
Proof.
  destruct (upload_fitted black_px black_px black_px contain_same scale_exact
              photo_open size_save sample_exif sample_parse_int "src"
              [] spectra6_vertical empty_upload_state "imageFile" photo_upload
              photo_1600x1200 800 480)
    as [out [Hfit [Hw [Hh [Hsave _]]]]].
  - decide_true.
  - reflexivity.
  - reflexivity.
  - reflexivity.
  - lia.
  - lia.
  - exists out. split; [exact Hfit|]. split; [exact Hw|]. split; [exact Hh|].
    destruct (Hsave [width out; height out] eq_refl) as [Hdisk _].
    rewrite Hw, Hh in Hdisk. exact Hdisk.
Defined.

Lemma upload_bad_border_witness :
  disk (handle_file black_px black_px black_px contain_same scale_exact
          photo_open size_save sample_exif bad_parse_int "src"
          [("borderPercent", "abc")] (Some spectra6_vertical) empty_upload_state
          ("imageFile", photo_upload))
    = <["src/static/images/saved/photo.JPG" := [7; 7; 7]]> ∅ /\
  warnings (handle_file black_px black_px black_px contain_same scale_exact
              photo_open size_save sample_exif bad_parse_int "src"
              [("borderPercent", "abc")] (Some spectra6_vertical) empty_upload_state
              ("imageFile", photo_upload))
    = ["Image processing error for photo.JPG: invalid literal for int() with base 10"].
Proof.
  apply (upload_bad_border black_px black_px black_px contain_same scale_exact
           photo_open size_save sample_exif bad_parse_int "src"
           [("borderPercent", "abc")] spectra6_vertical empty_upload_state
           "imageFile" photo_upload photo_1600x1200 "abc"
           (ValueError "invalid literal for int() with base 10")).
  - decide_true.
  - reflexivity.
  - reflexivity.
  - reflexivity.
Defined.

Lemma upload_list_appends_witness :
  file_location_map
    (sample_handle_file [] None empty_upload_state ("imageFiles[]", photo_upload))
    !! "imageFiles[]"
  = Some (PathList ([] ++ ["src/static/images/saved/photo.JPG"])).
Proof.
  apply (upload_list_appends black_px black_px black_px contain_same scale_exact
           photo_open size_save sample_exif sample_parse_int "src"
           [] None empty_upload_state "imageFiles[]" photo_upload []).
  - decide_true.
  - reflexivity.
  - right. split; reflexivity.
Defined.

(** ** Fonts *)

Lemma py_index_first {A : Type} (a : A) (l : list A) : py_index (a :: l) 0 = inr a.
Proof.
  unfold py_index. cbn [length].
  destruct (Z.ltb_spec 0 0); [lia|].
  destruct (Z.leb_spec 0 0); [|lia].
  destruct (Z.ltb_spec 0 (Z.of_nat (S (length l)))); [|lia].
  reflexivity.
Qed.

Lemma family_variants_known (font_name : string) (variants : list FontVariant) :
  In (font_name, variants) FONT_FAMILIES ->
  family_variants font_name = Some variants /\ variants <> [].
Proof.
  unfold FONT_FAMILIES, In.
  intros [H | [H | [H | [H | []]]]]; injection H as <- <-; split;
    (reflexivity || discriminate).
Qed.

Section FontFacts.

Variable src_dir : string.
Variable Font : Type.
Variable truetype : string -> Q -> result Font.

Local Abbreviation font_url v := (resolve_path src_dir ("static/fonts/" ++ file v)).
Local Abbreviation load path size :=
  (match truetype path size with
   | inr font => inr (Some font)
   | inl e => inl e
   end).

(** X18.  For a family of [FONT_FAMILIES] [get_font] logs nothing and
    gives what [ImageFont.truetype] gives for a file of that family, the
    font or the exception it raises: the file of the variant of the
    requested weight when the family has one, of the first variant of the
    family otherwise.  For any other name it returns [None] and logs one
    warning, and no file is opened. *)
Theorem get_font_spec (font_name : string) (font_size : Q) (weight : string) :
  (forall variants,
     In (font_name, variants) FONT_FAMILIES ->
     exists v,
       In v variants /\
       get_font src_dir Font truetype font_name font_size weight
       = (load (font_url v) font_size, []) /\
       (font_weight v = weight \/
        ((forall u, In u variants -> font_weight u <> weight) /\
         List.head variants = Some v))) /\
  ((forall variants, ~ In (font_name, variants) FONT_FAMILIES) ->
   get_font src_dir Font truetype font_name font_size weight
   = (inr None, ["Requested font not found: font_name=" ++ font_name]%string)).
Proof.
  split.
  - intros variants Hin.
    destruct (family_variants_known _ _ Hin) as [Hfam Hne].
    unfold get_font. rewrite Hfam.
    destruct (List.find (fun entry => String.eqb (font_weight entry) weight) variants)
      as [v|] eqn:Hfind.
    + apply List.find_some in Hfind as [Hv Hw]. apply String.eqb_eq in Hw.
      exists v. split; [exact Hv|]. split; [|left; exact Hw].
      cbn [ret]. unfold bind. destruct (truetype _ _); reflexivity.
    + destruct variants as [|v0 rest]; [contradiction|].
      rewrite py_index_first.
      exists v0. split; [left; reflexivity|]. split.
      * unfold bind. destruct (truetype _ _); reflexivity.
      * right. split; [|reflexivity].
        intros u Hu. apply String.eqb_neq.
        exact (List.find_none _ _ Hfind u Hu).
  - intros Hnot. unfold get_font, family_variants.
    destruct (List.find (fun kv => String.eqb (fst kv) font_name) FONT_FAMILIES)
      as [[name variants]|] eqn:Hfind; [|reflexivity].
    apply List.find_some in Hfind as [Hin Hname]. cbn [fst] in Hname.
    apply String.eqb_eq in Hname. subst name.
    exfalso. exact (Hnot variants Hin).
Qed.

(** X19.  [get_fonts] and [get_font] agree: asking [get_font] for the
    family and weight of any entry of [get_fonts] opens the file at the
    url of that entry, and gives the font or the exception of
    [ImageFont.truetype] for it. *)
Theorem get_fonts_consistent (font_size : Q) :
  Forall (fun info =>
            get_font src_dir Font truetype (info_family info) font_size (info_weight info)
            = (load (info_url info) font_size, []))
         (get_fonts src_dir).
Proof.
  unfold get_fonts, FONT_FAMILIES. cbn [List.map List.concat app fst snd].
  repeat constructor;
    unfold get_font, bind, ret;
    cbn [family_variants FONT_FAMILIES List.find fst snd String.eqb Ascii.eqb Bool.eqb
         andb font_weight file info_family info_weight info_url];
    destruct (truetype _ _); reflexivity.
Qed.

End FontFacts.

Lemma get_font_spec_witness :
  get_font "src" (string * Q) sample_truetype "Jost" (Qmake 50 1) "bold"
  = (inr (Some ("src/static/fonts/Jost-SemiBold.ttf", Qmake 50 1)), []) /\
  get_font "src" (string * Q) sample_truetype "Napoli" (Qmake 50 1) "bold"
  = (inl (OSError "cannot open resource"), []) /\
  get_font "src" (string * Q) sample_truetype "Comic Sans" (Qmake 50 1) "bold"
  = (inr None, ["Requested font not found: font_name=Comic Sans"]).
Proof.
  split; [|split].
  - destruct (get_font_spec "src" (string * Q) sample_truetype "Jost" (Qmake 50 1) "bold")
      as [H _].
    destruct (H [mkFontVariant "normal" "Jost.ttf"; mkFontVariant "bold" "Jost-SemiBold.ttf"])
      as [v [Hv [Hfont Hweight]]].
    + unfold FONT_FAMILIES, In. auto.
    + rewrite Hfont.
      destruct Hv as [<- | [<- | []]].
      * destruct Hweight as [Hw | [Hw _]]; [discriminate Hw|].
        exfalso. apply (Hw (mkFontVariant "bold" "Jost-SemiBold.ttf")).
        { right. left. reflexivity. }
        { reflexivity. }
      * reflexivity.
  - destruct (get_font_spec "src" (string * Q) sample_truetype "Napoli" (Qmake 50 1) "bold")
      as [H _].
    destruct (H [mkFontVariant "normal" "Napoli.ttf"]) as [v [Hv [Hfont _]]].
    + unfold FONT_FAMILIES, In. auto.
    + rewrite Hfont. destruct Hv as [<- | []]. reflexivity.
  - destruct (get_font_spec "src" (string * Q) sample_truetype "Comic Sans" (Qmake 50 1)
                "bold") as [_ Hnone].
    apply Hnone. intros variants Hin. unfold FONT_FAMILIES, In in Hin.
    repeat (destruct Hin as [Hin | Hin]; [discriminate|]). exact Hin.
Defined.

(** ** More on the image-upload plugin *)

Lemma py_index_out_of_range {A : Type} (l : list A) (i : Z) :
  Z.of_nat (length l) <= i \/ i < - Z.of_nat (length l) ->
  py_index l i = inl (IndexError "list index out of range").
Proof.
  intros Hi. unfold py_index.
  destruct (Z.ltb_spec i 0).
  - destruct (Z.leb_spec 0 (i + Z.of_nat (length l))); cbn [andb]; [|reflexivity].
    destruct (Z.ltb_spec (i + Z.of_nat (length l)) (Z.of_nat (length l))); [lia|].
    reflexivity.
  - destruct (Z.leb_spec 0 i); cbn [andb]; [|reflexivity].
    destruct (Z.ltb_spec i (Z.of_nat (length l))); [lia | reflexivity].
Qed.

Lemma py_index_in_range {A : Type} (l : list A) (i : Z) (a : A) :
  0 <= i -> l !! Z.to_nat i = Some a -> py_index l i = inr a.
Proof.
  intros Hi Ha. unfold py_index.
  pose proof (lookup_lt_Some _ _ _ Ha) as Hlt.
  destruct (Z.ltb_spec i 0); [lia|].
  destruct (Z.leb_spec 0 i); [|lia].
  destruct (Z.ltb_spec i (Z.of_nat (length l))); [|lia].
  cbn [andb]. rewrite Ha. reflexivity.
Qed.

Section PluginFacts.

Variable Image_open : list Z -> result Image.
Variable randrange : Z -> result Z.

Local Abbreviation open_at := (open_image Image_open).
Local Abbreviation generate := (generate_image Image_open randrange).
Local Abbreviation stored_index settings :=
  (match image_index settings with Some i => i | None => 0 end).

(** X20.  [open_image] has three outcomes, told apart by its arguments
    alone.  A missing or empty list gives RuntimeError("No images
    provided.") and no log.  An index inside a non-empty list whose file
    [Image.open] accepts gives that image and no log.  In every other
    case, an index outside the list or a file that is missing or that
    [Image.open] refuses, the exception is logged and
    RuntimeError("Failed to read image file.") is raised.  No other
    exception leaves the function. *)
Theorem open_image_errors (d : Disk) (img_index : Z) (image_locations : option (list string)) :
  ((image_locations = None \/ image_locations = Some []) /\
   open_at d img_index image_locations
   = (inl (RuntimeError "No images provided."), [])) \/
  (exists locs path image,
     image_locations = Some locs /\ locs <> [] /\
     py_index locs img_index = inr path /\
     Image_open_path Image_open d path = inr image /\
     open_at d img_index image_locations = (inr image, [])) \/
  (exists locs e,
     image_locations = Some locs /\ locs <> [] /\
     (py_index locs img_index = inl e \/
      exists path,
        py_index locs img_index = inr path /\
        Image_open_path Image_open d path = inl e) /\
     open_at d img_index image_locations
     = (inl (RuntimeError "Failed to read image file."),
        ["Failed to read image file: " ++ exn_message e]%string)).
Proof.
  unfold open_image.
  destruct image_locations as [[|l locs]|].
  - left. split; [right|]; reflexivity.
  - right.
    destruct (py_index (l :: locs) img_index) as [e|path] eqn:Hidx; cbn [bind].
    + right. exists (l :: locs), e.
      split; [reflexivity|]. split; [discriminate|]. split; [left; exact Hidx|].
      reflexivity.
    + destruct (Image_open_path Image_open d path) as [e|image] eqn:Hopen.
      * right. exists (l :: locs), e.
        split; [reflexivity|]. split; [discriminate|].
        split; [right; exists path; split; [exact Hidx | exact Hopen]|].
        reflexivity.
      * left. exists (l :: locs), path, image.
        split; [reflexivity|]. split; [discriminate|].
        split; [exact Hidx|]. split; [exact Hopen|]. reflexivity.
  - left. split; [left|]; reflexivity.
Qed.

(** X21.  An index past either end of a non-empty list is reported as a
    read error, not as an index error; the log names the cause. *)
Theorem open_image_out_of_range (d : Disk) (img_index : Z) (locs : list string) :
  locs <> [] ->
  Z.of_nat (length locs) <= img_index \/ img_index < - Z.of_nat (length locs) ->
  open_at d img_index (Some locs)
  = (inl (RuntimeError "Failed to read image file."),
     ["Failed to read image file: list index out of range"]).
Proof.
  intros Hne Hidx. unfold open_image.
  destruct locs as [|l locs]; [contradiction|].
  rewrite (py_index_out_of_range (l :: locs) img_index Hidx). reflexivity.
Qed.

(** X22.  Without randomizing, a call that can read its image shows the
    image at the stored index (at index 0 when the stored index is past
    the end of the list) and stores the next index, wrapping to 0 after
    the last image; the stored index stays inside the list. *)
Theorem generate_image_advances (d : Disk) (settings : Settings) (locs : list string)
        (path : string) (img : Image) :
  imageFiles settings = Some locs ->
  randomize settings <> Some "true" ->
  0 <= stored_index settings ->
  locs !! Z.to_nat (if Z.of_nat (length locs) <=? stored_index settings
                    then 0 else stored_index settings) = Some path ->
  Image_open_path Image_open d path = inr img ->
  generate d settings
  = (inr img,
     mkSettings
       (Some (((if Z.of_nat (length locs) <=? stored_index settings
                then 0 else stored_index settings) + 1) mod Z.of_nat (length locs)))
       (imageFiles settings) (randomize settings),
     []) /\
  0 <= ((if Z.of_nat (length locs) <=? stored_index settings
         then 0 else stored_index settings) + 1) mod Z.of_nat (length locs)
    < Z.of_nat (length locs).
Proof.
  intros Hfiles Hrand Hnn Hpath Hopen.
  set (idx := if Z.of_nat (length locs) <=? stored_index settings
              then 0 else stored_index settings) in *.
  assert (Hidx : 0 <= idx) by (unfold idx; destruct (_ <=? _); lia).
  pose proof (lookup_lt_Some _ _ _ Hpath) as Hlt.
  split; [|apply Z.mod_pos_bound; lia].
  unfold generate_image. rewrite Hfiles.
  assert (Hr : match randomize settings with
               | Some r => String.eqb r "true"
               | None => false
               end = false).
  { destruct (randomize settings) as [r|]; [|reflexivity].
    apply String.eqb_neq. congruence. }
  rewrite Hr. fold idx.
  rewrite (open_image_ok Image_open d idx locs path img
             (py_index_in_range locs idx path Hidx Hpath) Hopen).
  reflexivity.
Qed.

(** X23.  With [randomize] set to "true" the image at the drawn index is
    shown and the drawn index itself is stored, not the next one. *)
Theorem generate_image_random (d : Disk) (settings : Settings) (locs : list string)
        (drawn : Z) (path : string) (img : Image) :
  imageFiles settings = Some locs ->
  randomize settings = Some "true" ->
  randrange (Z.of_nat (length locs)) = inr drawn ->
  py_index locs drawn = inr path ->
  Image_open_path Image_open d path = inr img ->
  generate d settings
  = (inr img, mkSettings (Some drawn) (imageFiles settings) (randomize settings), []).
Proof.
  intros Hfiles Hrand Hdraw Hidx Hopen.
  unfold generate_image. rewrite Hfiles, Hrand, Hdraw.
  cbn [String.eqb Ascii.eqb Bool.eqb andb].
  rewrite (open_image_ok Image_open d drawn locs path img Hidx Hopen). reflexivity.
Qed.

End PluginFacts.

Lemma open_image_out_of_range_witness :
  open_image good_open sample_disk 2 (Some ["a.png"; "b.png"])
  = (inl (RuntimeError "Failed to read image file."),
     ["Failed to read image file: list index out of range"]).
Proof.
  apply (open_image_out_of_range good_open sample_disk 2 ["a.png"; "b.png"]).
  - discriminate.
  - left. simpl. lia.
Defined.

Lemma generate_image_advances_witness :
  generate_image good_open sample_randrange sample_disk two_images
  = (inr (mkImage 1 1 (fun _ _ => White)),
     mkSettings (Some 0) (Some ["a.png"; "b.png"]) None, []).
Proof.
  destruct (generate_image_advances good_open sample_randrange sample_disk two_images
              ["a.png"; "b.png"] "b.png" (mkImage 1 1 (fun _ _ => White)))
    as [H _].
  - reflexivity.
  - discriminate.
  - simpl. lia.
  - reflexivity.
  - reflexivity.
  - exact H.
Defined.

Lemma generate_image_random_witness :
  generate_image good_open sample_randrange sample_disk
                 (mkSettings (Some 1) (Some ["a.png"; "b.png"]) (Some "true"))
  = (inr (mkImage 1 1 (fun _ _ => White)),
     mkSettings (Some 0) (Some ["a.png"; "b.png"]) (Some "true"), []).
Proof.
  apply (generate_image_random good_open sample_randrange sample_disk
           (mkSettings (Some 1) (Some ["a.png"; "b.png"]) (Some "true"))
           ["a.png"; "b.png"] 0 "a.png" (mkImage 1 1 (fun _ _ => White)));
    reflexivity.
Defined.

Section UploadThenShow.

Variable fit_px : Image -> Z * Z -> Z -> Z -> rgb.
Variable resize_px : Image -> Z * Z -> Z -> Z -> rgb.
Variable blur_px : Image -> Z * Z -> Z -> Z -> rgb.
Variable contain : Image -> Z * Z -> Image.
Variable scale_dim : Z -> Z -> Z.
Variable Image_open : list Z -> result Image.
Variable Image_save : Image -> string -> result (list Z).
Variable exif_transpose : Image -> Image.
Variable parse_int : string -> result Z.
Variable src_dir : string.
Variable randrange : Z -> result Z.

Local Abbreviation upload_one :=
  (handle_file fit_px resize_px blur_px contain scale_dim
               Image_open Image_save exif_transpose parse_int src_dir).
Local Abbreviation fitter := (_resize_and_rotate_image fit_px resize_px blur_px contain scale_dim).
Local Abbreviation saved_path file_ :=
  ((resolve_path src_dir "static/images/saved" ++ "/" ++ basename (filename file_))%string).

(** X24.  "Image is already resized and rotated on upload": when an image
    is uploaded with a device configuration and the saved file decodes to
    the image that was encoded, the plugin, given the returned path, shows
    an image of exactly the display resolution. *)
Theorem uploaded_image_fits (form_data : list (string * string)) (cfg : DeviceConfig)
        (st : UploadState) (key : string) (file_ : FileStorage)
        (img out : Image) (bytes : list Z) (w h : Z) :
  lower (remove_dots (splitext_ext (filename file_))) ∈ image_extensions ->
  Image_open (stream file_) = inr img ->
  form_get form_data "borderPercent" = None ->
  resolution cfg = (w, h) -> 1 <= w -> 1 <= h ->
  fitter (exif_transpose img) cfg 0 = inr out ->
  Image_save out (saved_path file_) = inr bytes ->
  Image_open bytes = inr out ->
  generate_image Image_open randrange
    (disk (upload_one form_data (Some cfg) st (key, file_)))
    (mkSettings None (Some [saved_path file_]) None)
  = (inr out, mkSettings (Some 0) (Some [saved_path file_]) None, []) /\
  width out = w /\ height out = h.
Proof.
  intros Hext Hopen Hborder Hres Hw Hh Hfit Hsave Hback.
  destruct (image_extension_allowed _ Hext) as [Hallowed _].
  destruct (fit_stage_size fit_px resize_px blur_px contain scale_dim
              (exif_transpose img) cfg w h Hres Hw Hh) as [out' [Hfit' [Hwo Hho]]].
  rewrite Hfit in Hfit'. injection Hfit' as <-.
  split; [|split; assumption].
  rewrite (handle_file_accepted fit_px resize_px blur_px contain scale_dim
             Image_open Image_save exif_transpose parse_int src_dir
             _ _ _ _ _ Hallowed).
  cbv zeta. rewrite (bool_decide_eq_true_2 _ Hext).
  unfold process_image. rewrite Hopen, Hborder. cbn [bind ret].
  rewrite Hfit. cbn [bind]. rewrite Hsave. cbn [disk].
  unfold generate_image. cbn [image_index imageFiles randomize length].
  change (Z.of_nat 1 <=? 0) with false. cbv iota.
  rewrite (open_image_ok Image_open _ 0 [saved_path file_] (saved_path file_) out).
  - reflexivity.
  - apply py_index_first.
  - unfold Image_open_path, Disk. rewrite lookup_insert_eq. exact Hback.
Qed.

End UploadThenShow.

Lemma uploaded_image_fits_witness :
  generate_image photo_open sample_randrange
    (disk (handle_file white_px black_px black_px contain_same scale_exact
                       photo_open size_save sample_exif sample_parse_int "src"
                       [] (Some photo_display) empty_upload_state
                       ("imageFile", photo_upload)))
    (mkSettings None (Some ["src/static/images/saved/photo.JPG"]) None)
  = (inr photo_1600x1200,
     mkSettings (Some 0) (Some ["src/static/images/saved/photo.JPG"]) None, []) /\
  width photo_1600x1200 = 1600 /\ height photo_1600x1200 = 1200.
Proof.
  apply (uploaded_image_fits
           white_px black_px black_px contain_same scale_exact
           photo_open size_save sample_exif sample_parse_int "src" sample_randrange
           [] photo_display empty_upload_state
           "imageFile" photo_upload photo_1600x1200 photo_1600x1200 [1600; 1200]).
  - decide_true.
  - reflexivity.
  - reflexivity.
  - reflexivity.
  - lia.
  - lia.
  - reflexivity.
  - reflexivity.
  - reflexivity.
Defined.

(** ** [cleanup] *)

Section CleanupFacts.

Variable removable : string -> bool.

Lemma cleanup_one_disk (d : Disk) (log : list string) (q : string) :
  fst (cleanup_one removable (d, log) q) = if removable q then delete q d else d.
Proof.
  unfold cleanup_one, os_remove, Disk in *.
  destruct (d !! q) eqn:Hq.
  - destruct (removable q); reflexivity.
  - cbn [fst]. destruct (removable q); [|reflexivity].
    symmetry. apply delete_id. exact Hq.
Qed.

Lemma cleanup_fold_lookup (locs : list string) (p : string) :
  forall st : Disk * list string,
    fst (fold_left (cleanup_one removable) locs st) !! p
    = if existsb (String.eqb p) locs && removable p then None else fst st !! p.
Proof.
  induction locs as [|q locs IH]; intros [d log]; [reflexivity|].
  cbn [fold_left existsb]. rewrite IH.
  destruct (cleanup_one removable (d, log) q) as [d1 log1] eqn:Hone.
  pose proof (cleanup_one_disk d log q) as Hd. rewrite Hone in Hd. cbn [fst] in *.
  subst d1. unfold Disk in *.
  destruct (String.eqb_spec p q) as [-> | Hne]; cbn [orb].
  - destruct (removable q); cbn [andb].
    + rewrite andb_true_r. rewrite lookup_delete_eq.
      destruct (existsb (String.eqb q) locs); reflexivity.
    + rewrite andb_false_r. reflexivity.
  - destruct (existsb (String.eqb p) locs && removable p); [reflexivity|].
    destruct (removable q); [|reflexivity].
    apply lookup_delete_ne. congruence.
Qed.

(** X25.  After [cleanup] a path is gone exactly when the settings list it
    and the system lets it be removed; every other path, listed or not,
    holds what it held before. *)
Theorem cleanup_lookup (d : Disk) (settings : Settings) (p : string) :
  fst (cleanup removable d settings) !! p
  = if existsb (String.eqb p)
         (match imageFiles settings with Some l => l | None => [] end)
       && removable p
    then None
    else d !! p.
Proof.
  unfold cleanup.
  destruct (match imageFiles settings with Some l => l | None => [] end) as [|q locs] eqn:Hl.
  - reflexivity.
  - rewrite <- Hl. rewrite cleanup_fold_lookup.
    rewrite Hl. reflexivity.
Qed.

End CleanupFacts.
